(** * jquery-html5-dnd: a shallow embedding of the drag-and-drop wrappers

    The plugin of [src/jquery-html5-dnd.js] keeps its whole state in six
    closure variables and reacts to native drag events, to two kinds of
    timers and to calls of its two jQuery plugins.  The embedding below
    makes that state an explicit record, every handler a function from an
    event object and a state to a returned value, the event object and the
    next state, and the browser (DOM attributes, class lists, scroll
    offsets, timers, jQuery listeners and [$.data]) part of the state. *)

From stdpp Require Import gmap strings list fin_maps pretty.
From Stdlib Require Import ZArith.

Local Open Scope string_scope.
Local Open Scope Z_scope.
Local Open Scope list_scope.

(** ** JavaScript values *)

(** The values the handlers compare and store.  [JRef] stands for any value
    that [===] compares by identity (objects, arrays, functions); numbers
    are the integral ones, which is all a payload needs here. *)
Inductive JsVal : Type :=
| JUndefined
| JNull
| JBool (b : bool)
| JNum (z : Z)
| JStr (s : string)
| JRef (r : nat).

#[global] Instance JsVal_eq_dec : EqDecision JsVal.
Proof. solve_decision. Defined.

(** ToBoolean *)
Definition truthy (v : JsVal) : bool :=
  match v with
  | JUndefined | JNull => false
  | JBool b => b
  | JNum z => negb (z =? 0)
  | JStr s => negb (String.eqb s "")
  | JRef _ => true
  end.

(** [a || b] *)
Definition js_or (a b : JsVal) : JsVal := if truthy a then a else b.

(** [a === b] *)
Definition strict_eq (a b : JsVal) : bool :=
  match a, b with
  | JUndefined, JUndefined => true
  | JNull, JNull => true
  | JBool x, JBool y => Bool.eqb x y
  | JNum x, JNum y => x =? y
  | JStr x, JStr y => String.eqb x y
  | JRef x, JRef y => Nat.eqb x y
  | _, _ => false
  end.

(** ToString, as [setAttribute] applies it to its value. *)
Definition js_to_string (v : JsVal) : string :=
  match v with
  | JUndefined => "undefined"
  | JNull => "null"
  | JBool true => "true"
  | JBool false => "false"
  | JNum z => pretty z
  | JStr s => s
  | JRef _ => "[object Object]"
  end.

(** ** The document *)

Definition Node := nat.

(** The two nodes the source names: [document] carries the default
    listeners, [document.body] the global dragging attribute. *)
Definition document : Node := 0%nat.
Definition body : Node := 1%nat.

(** What a jQuery set used as scroll container holds: the window or
    elements. *)
Inductive ScrollTarget : Type :=
| Window
| Element (n : Node).

#[global] Instance ScrollTarget_eq_dec : EqDecision ScrollTarget.
Proof. solve_decision. Defined.

#[global] Program Instance ScrollTarget_countable : Countable ScrollTarget :=
  inj_countable'
    (λ t, match t with Window => None | Element n => Some n end)
    (λ o, match o with None => Window | Some n => Element n end) _.
Next Obligation. by intros []. Qed.

Record Dom : Type := mkDom {
  attributes : gmap (Node * string) string;
  classList : gset (Node * string);
  scrollTops : gmap ScrollTarget Z
}.

(** [el.getAttribute(name)]: the string, or [null]. *)
Definition getAttribute (d : Dom) (el : Node) (name : string) : JsVal :=
  match attributes d !! (el, name) with
  | Some v => JStr v
  | None => JNull
  end.

Definition setAttribute (d : Dom) (el : Node) (name : string) (v : JsVal) : Dom :=
  mkDom (<[(el, name) := js_to_string v]> (attributes d)) (classList d) (scrollTops d).

Definition removeAttribute (d : Dom) (el : Node) (name : string) : Dom :=
  mkDom (delete (el, name) (attributes d)) (classList d) (scrollTops d).

Definition classList_add (d : Dom) (el : Node) (c : string) : Dom :=
  mkDom (attributes d) ({[ (el, c) ]} ∪ classList d) (scrollTops d).

Definition classList_remove (d : Dom) (el : Node) (c : string) : Dom :=
  mkDom (attributes d) (classList d ∖ {[ (el, c) ]}) (scrollTops d).

Definition hasClass (d : Dom) (el : Node) (c : string) : bool :=
  bool_decide ((el, c) ∈ classList d).

(** ** Event objects *)

(** [e.originalEvent.dataTransfer].  [setDragImage_supported] is the
    truth value of the [setDragImage] member, which the source tests;
    [dragImage] holds the arguments of the last call of it. *)
Record DataTransfer : Type := mkDataTransfer {
  effectAllowed : JsVal;
  dropEffect : JsVal;
  transferData : list (string * string);
  dragImage : option (option Node * Z * Z);
  setDragImage_supported : bool
}.

Record Event : Type := mkEvent {
  target : Node;
  currentTarget : Node;
  defaultPrevented : bool;
  propagationStopped : bool;
  dataTransfer : DataTransfer
}.

Definition preventDefault (e : Event) : Event :=
  mkEvent (target e) (currentTarget e) true (propagationStopped e) (dataTransfer e).

Definition stopPropagation (e : Event) : Event :=
  mkEvent (target e) (currentTarget e) (defaultPrevented e) true (dataTransfer e).

Definition with_dataTransfer (f : DataTransfer → DataTransfer) (e : Event) : Event :=
  mkEvent (target e) (currentTarget e) (defaultPrevented e) (propagationStopped e)
    (f (dataTransfer e)).

Definition set_effectAllowed (v : JsVal) (dt : DataTransfer) : DataTransfer :=
  mkDataTransfer v (dropEffect dt) (transferData dt) (dragImage dt)
    (setDragImage_supported dt).

Definition set_dropEffect (v : JsVal) (dt : DataTransfer) : DataTransfer :=
  mkDataTransfer (effectAllowed dt) v (transferData dt) (dragImage dt)
    (setDragImage_supported dt).

Definition setData (format data : string) (dt : DataTransfer) : DataTransfer :=
  mkDataTransfer (effectAllowed dt) (dropEffect dt) ((format, data) :: transferData dt)
    (dragImage dt) (setDragImage_supported dt).

Definition setDragImage (img : option Node) (x y : Z) (dt : DataTransfer) : DataTransfer :=
  mkDataTransfer (effectAllowed dt) (dropEffect dt) (transferData dt)
    (Some (img, x, y)) (setDragImage_supported dt).

(** An event the plugin triggers with [$(target).trigger({...})]: its type,
    the element it is triggered on and the three members the source puts
    in it ([originalDragEvent] or [originalDropEvent], [dragType],
    [dragData]).  The event object is recorded as it is at the call. *)
Record Triggered : Type := mkTriggered {
  trig_type : string;
  trig_target : Node;
  trig_original : Event;
  trig_dragType : JsVal;
  trig_dragData : JsVal
}.

(** ** Timers, listeners, and the state *)

(** The three functions the source passes to [setTimeout]. *)
Inductive TimeoutCallback : Type :=
| CbSetDraggingState
| CbClearDraggingState
| CbExternalMethods.

(** The handlers the source registers. *)
Inductive HandlerName : Type :=
| HonDragStart | HonDragEnd
| HonDragEnter | HonDragOver | HonDragLeave | HonDragDrop
| HonDroppableEdgeEnter | HonDroppableEdgeLeave
| HdataSet.

#[global] Instance HandlerName_eq_dec : EqDecision HandlerName.
Proof. solve_decision. Defined.

(** A listener added by [$(el).on('event.ns', selector, handler)];
    [lst_selector] is [JUndefined] when no selector is passed. *)
Record Listener : Type := mkListener {
  lst_element : Node;
  lst_event : string;
  lst_namespace : string;
  lst_selector : JsVal;
  lst_handler : HandlerName
}.

(** An active interval timer.  The source has one interval function, the
    scrolling one, which closes over its [scrollDiff]; the timer is that
    difference and the delay it was set with. *)
Record IntervalTimer : Type := mkIntervalTimer {
  delay : Z;
  scrollDiff : Z
}.

(** The value of [$scrollContainer]: still undefined, [null], or a jQuery
    set. *)
Inductive JQuery : Type :=
| JQundefined
| JQnull
| JQset (els : list ScrollTarget).

Record State : Type := mkState {
  (* the closure's STATE VARIABLES *)
  dragData : JsVal;
  dragType : JsVal;
  triggerDraggableEvents : bool;
  cancelled : bool;
  scrollInterval : option nat;
  scrollContainer : JQuery;
  (* the browser *)
  dom : Dom;
  timeouts : list (nat * TimeoutCallback);
  intervals : list (nat * IntervalTimer);
  nextTimerId : nat;
  (* jQuery *)
  listeners : list Listener;
  elemData : gmap (Node * string) bool;
  triggered : list Triggered
}.

Definition set_dragData (v : JsVal) (s : State) : State :=
  mkState v (dragType s) (triggerDraggableEvents s) (cancelled s)
    (scrollInterval s) (scrollContainer s) (dom s) (timeouts s) (intervals s)
    (nextTimerId s) (listeners s) (elemData s) (triggered s).

Definition set_dragType (v : JsVal) (s : State) : State :=
  mkState (dragData s) v (triggerDraggableEvents s) (cancelled s)
    (scrollInterval s) (scrollContainer s) (dom s) (timeouts s) (intervals s)
    (nextTimerId s) (listeners s) (elemData s) (triggered s).

Definition set_triggerDraggableEvents (b : bool) (s : State) : State :=
  mkState (dragData s) (dragType s) b (cancelled s)
    (scrollInterval s) (scrollContainer s) (dom s) (timeouts s) (intervals s)
    (nextTimerId s) (listeners s) (elemData s) (triggered s).

Definition set_cancelled (b : bool) (s : State) : State :=
  mkState (dragData s) (dragType s) (triggerDraggableEvents s) b
    (scrollInterval s) (scrollContainer s) (dom s) (timeouts s) (intervals s)
    (nextTimerId s) (listeners s) (elemData s) (triggered s).

Definition set_scrollInterval (v : option nat) (s : State) : State :=
  mkState (dragData s) (dragType s) (triggerDraggableEvents s) (cancelled s)
    v (scrollContainer s) (dom s) (timeouts s) (intervals s)
    (nextTimerId s) (listeners s) (elemData s) (triggered s).

Definition set_scrollContainer (v : JQuery) (s : State) : State :=
  mkState (dragData s) (dragType s) (triggerDraggableEvents s) (cancelled s)
    (scrollInterval s) v (dom s) (timeouts s) (intervals s)
    (nextTimerId s) (listeners s) (elemData s) (triggered s).

Definition set_dom (d : Dom) (s : State) : State :=
  mkState (dragData s) (dragType s) (triggerDraggableEvents s) (cancelled s)
    (scrollInterval s) (scrollContainer s) d (timeouts s) (intervals s)
    (nextTimerId s) (listeners s) (elemData s) (triggered s).

Definition set_timeouts (l : list (nat * TimeoutCallback)) (s : State) : State :=
  mkState (dragData s) (dragType s) (triggerDraggableEvents s) (cancelled s)
    (scrollInterval s) (scrollContainer s) (dom s) l (intervals s)
    (nextTimerId s) (listeners s) (elemData s) (triggered s).

Definition set_intervals (l : list (nat * IntervalTimer)) (s : State) : State :=
  mkState (dragData s) (dragType s) (triggerDraggableEvents s) (cancelled s)
    (scrollInterval s) (scrollContainer s) (dom s) (timeouts s) l
    (nextTimerId s) (listeners s) (elemData s) (triggered s).

Definition set_nextTimerId (n : nat) (s : State) : State :=
  mkState (dragData s) (dragType s) (triggerDraggableEvents s) (cancelled s)
    (scrollInterval s) (scrollContainer s) (dom s) (timeouts s) (intervals s)
    n (listeners s) (elemData s) (triggered s).

Definition set_listeners (l : list Listener) (s : State) : State :=
  mkState (dragData s) (dragType s) (triggerDraggableEvents s) (cancelled s)
    (scrollInterval s) (scrollContainer s) (dom s) (timeouts s) (intervals s)
    (nextTimerId s) l (elemData s) (triggered s).

Definition set_elemData (m : gmap (Node * string) bool) (s : State) : State :=
  mkState (dragData s) (dragType s) (triggerDraggableEvents s) (cancelled s)
    (scrollInterval s) (scrollContainer s) (dom s) (timeouts s) (intervals s)
    (nextTimerId s) (listeners s) m (triggered s).

Definition set_triggered (l : list Triggered) (s : State) : State :=
  mkState (dragData s) (dragType s) (triggerDraggableEvents s) (cancelled s)
    (scrollInterval s) (scrollContainer s) (dom s) (timeouts s) (intervals s)
    (nextTimerId s) (listeners s) (elemData s) l.

(** ** Constants of the source *)

Definition DEFAULT_DRAG_NAMESPACE : string := "html5-draggable".
Definition DEFAULT_DROP_NAMESPACE : string := "html5-droppable".
Definition DRAGGABLE_SELECTOR : string := "[data-draggable]".
Definition DRAGGABLE_DRAGGING_CLASS : string := "draggable-dragging".
Definition DROPPABLE_SELECTOR : string := "[data-droppable]".
Definition DROPPABLE_HOVER_CLASS : string := "droppable-hover".
Definition DROPPABLE_EDGE_SELECTOR : string := "[data-droppable-edge]".
Definition GLOBAL_DRAGGING_ATTR : string := "data-dragging".
Definition SCROLL_INTERVAL : Z := 50.

(** ** Browser and jQuery primitives *)

(** [setTimeout(cb, 1)]: every timeout of the source has the same delay, so
    the pending ones fire in the order they were set.  Timers get their
    ids from one counter. *)
Definition setTimeout (cb : TimeoutCallback) (s : State) : State :=
  set_nextTimerId (S (nextTimerId s))
    (set_timeouts (timeouts s ++ [(nextTimerId s, cb)]) s).

(** [setInterval(function () {...}, delay)]: the new timer gets the next
    id, which the call returns. *)
Definition setInterval (timer : IntervalTimer) (s : State) : nat * State :=
  (nextTimerId s,
   set_nextTimerId (S (nextTimerId s))
     (set_intervals (intervals s ++ [(nextTimerId s, timer)]) s)).

(** [clearInterval(id)]: timeouts and intervals share their ids, so the
    call cancels whichever timer has the id; nothing when the id is
    undefined or names no timer. *)
Definition clearInterval (id : option nat) (s : State) : State :=
  match id with
  | None => s
  | Some i =>
      set_timeouts (filter (λ t, t.1 ≠ i) (timeouts s))
        (set_intervals (filter (λ t, t.1 ≠ i) (intervals s)) s)
  end.

(** [$(target).trigger({...})].  The listeners it runs are the
    application's; the model keeps the events in the order they were
    triggered.  A listener that calls back into the module during the
    trigger, with a [dnd-data-set] in answer to [dnd-start] as the source
    suggests, is the input that follows the handler: after its trigger
    [onDragStart] writes none of the session variables. *)
Definition trigger (ev : Triggered) (s : State) : State :=
  set_triggered (triggered s ++ [ev]) s.

(** [$(el).on('event.ns', selector, handler)] *)
Definition on (el : Node) (event ns : string) (selector : JsVal)
    (h : HandlerName) (s : State) : State :=
  set_listeners (listeners s ++ [mkListener el event ns selector h]) s.

Definition in_namespace (el : Node) (ns : string) (l : Listener) : Prop :=
  lst_element l = el ∧ lst_namespace l = ns.

#[global] Instance in_namespace_dec el ns l : Decision (in_namespace el ns l).
Proof. unfold in_namespace. apply _. Defined.

(** [$(el).off('.ns')] *)
Definition off (el : Node) (ns : string) (s : State) : State :=
  set_listeners (filter (λ l, ¬ in_namespace el ns l) (listeners s)) s.

(** [$.data(el, key)], read for its truth value: nothing stored is
    undefined. *)
Definition data_get (el : Node) (key : string) (s : State) : bool :=
  default false (elemData s !! (el, key)).

(** [$.data(el, key, value)] *)
Definition data_set (el : Node) (key : string) (v : bool) (s : State) : State :=
  set_elemData (<[(el, key) := v]> (elemData s)) s.

(** [$c.scrollTop()] reads the offset of the first element of the set. *)
Definition scrollTop_of (d : Dom) (t : ScrollTarget) : Z :=
  default 0 (scrollTops d !! t).

(** [$c.scrollTop(v)] writes the offset of every element of the set.  The
    offset is kept as written: the range a browser holds it in is not
    the source's. *)
Definition scrollTop_set (d : Dom) (els : list ScrollTarget) (v : Z) : Dom :=
  mkDom (attributes d) (classList d)
    (foldr (λ t m, <[t := v]> m) (scrollTops d) els).

(** ** HELPERS *)

Definition setDraggingState (s : State) : State :=
  set_dom (setAttribute (dom s) body GLOBAL_DRAGGING_ATTR (dragType s)) s.

Definition clearDraggingState (s : State) : State :=
  set_dom (removeAttribute (dom s) body GLOBAL_DRAGGING_ATTR) s.

(** ** EVENT HANDLERS *)

(** What a handler gives back: the value it returns, the event object and
    the state. *)
Definition Outcome : Type := JsVal * Event * State.

Section Handlers.

(** The two document queries the source makes, answered by the
    browser: [document.getElementById] and the elements a jQuery
    selector string matches. *)
Variable getElementById : Dom → string → option Node.
Variable select : Dom → string → list Node.

(** [$(selector)] after [if (selector === 'window') selector = window] *)
Definition jQuery (d : Dom) (selector : JsVal) : list ScrollTarget :=
  if strict_eq selector (JStr "window") then [Window]
  else Element <$> select d (js_to_string selector).

(** [setDragImage] takes an element: called with the [null] that
    [getElementById] gives for an id no element has, it throws a
    TypeError, and the handler ends at the call, before it sets the
    timeout. *)
Definition onDragStart (e : Event) (s : State) : Outcome :=
  let tgt := target e in
  let type := js_or (getAttribute (dom s) tgt "data-draggable")
                    (getAttribute (dom s) tgt "data-draggable-type") in
  let data := js_or (getAttribute (dom s) tgt "data-draggable-data") (JStr "") in
  if negb (truthy type) then (JUndefined, e, s) else
  let s := set_dragData data s in
  let s := set_dragType type s in
  let s := set_dom (classList_add (dom s) tgt DRAGGABLE_DRAGGING_CLASS) s in
  let s :=
    if strict_eq (getAttribute (dom s) tgt "data-draggable-trigger") (JStr "true")
    then trigger (mkTriggered "dnd-start" tgt e type data)
           (set_triggerDraggableEvents true s)
    else s in
  let e := with_dataTransfer (set_effectAllowed (JStr "move")) e in
  let e := with_dataTransfer (setData "Text" "true") e in
  if setDragImage_supported (dataTransfer e) then
    let dragImageId := getAttribute (dom s) tgt "data-draggable-image" in
    if truthy dragImageId then
      let dragImage := getElementById (dom s) (js_to_string dragImageId) in
      let e := with_dataTransfer (setDragImage dragImage 0 0) e in
      match dragImage with
      | None => (JUndefined, e, s)
      | Some _ => (JUndefined, e, setTimeout CbSetDraggingState s)
      end
    else (JUndefined, e, setTimeout CbSetDraggingState s)
  else (JUndefined, e, setTimeout CbSetDraggingState s).

Definition onDragEnd (e : Event) (s : State) : Outcome :=
  let tgt := target e in
  let s := set_dom (classList_remove (dom s) tgt DRAGGABLE_DRAGGING_CLASS) s in
  let s :=
    if triggerDraggableEvents s
    then set_triggerDraggableEvents false
           (trigger (mkTriggered "dnd-end" tgt e (dragType s) (dragData s)) s)
    else s in
  (JUndefined, e, setTimeout CbClearDraggingState s).

Definition onDragEnter (e : Event) (s : State) : Outcome :=
  let tgt := currentTarget e in
  let acceptedType := js_or (getAttribute (dom s) tgt "data-droppable")
                            (getAttribute (dom s) tgt "data-droppable-type") in
  let s := set_cancelled (negb (strict_eq acceptedType (dragType s))) s in
  if cancelled s then (JUndefined, e, s) else
  let e := with_dataTransfer (set_dropEffect (JStr "move")) e in
  let s := set_dom (classList_add (dom s) tgt DROPPABLE_HOVER_CLASS) s in
  let e := stopPropagation e in
  (JUndefined, e, s).

Definition onDragOver (e : Event) (s : State) : Outcome :=
  if negb (cancelled s) then (JBool false, preventDefault e, s)
  else (JUndefined, e, s).

Definition onDragLeave (e : Event) (s : State) : Outcome :=
  let tgt := currentTarget e in
  (JUndefined, e, set_dom (classList_remove (dom s) tgt DROPPABLE_HOVER_CLASS) s).

Definition onDragDrop (e : Event) (s : State) : Outcome :=
  let e := stopPropagation e in
  let e := preventDefault e in
  let tgt := currentTarget e in
  let s := set_dom (classList_remove (dom s) tgt DROPPABLE_HOVER_CLASS) s in
  let s := trigger (mkTriggered "dnd-drop" tgt e (dragType s) (dragData s)) s in
  (JUndefined, e, setTimeout CbClearDraggingState s).

(** The function given to [setInterval].  It reads [$scrollContainer]
    when it runs; on [null] or undefined the member access throws,
    which is [None]. *)
Definition scrollStep (diff : Z) (s : State) : option State :=
  match scrollContainer s with
  | JQset [] => Some s
  | JQset (first :: rest) =>
      let scrollTop := scrollTop_of (dom s) first in
      Some (set_dom (scrollTop_set (dom s) (first :: rest) (scrollTop + diff)) s)
  | _ => None
  end.

Definition onDroppableEdgeEnter (e : Event) (s : State) : Outcome :=
  let edge := currentTarget e in
  let selector := getAttribute (dom s) edge "data-droppable-edge-container" in
  if truthy selector then
    let s := set_scrollContainer (JQset (jQuery (dom s) selector)) s in
    match scrollContainer s with
    | JQset (_ :: _) =>
        let position := getAttribute (dom s) edge "data-droppable-edge" in
        let diff := if strict_eq position (JStr "top") then -40 else 40 in
        let s := clearInterval (scrollInterval s) s in
        let '(id, s) := setInterval (mkIntervalTimer SCROLL_INTERVAL diff) s in
        (JUndefined, e, set_scrollInterval (Some id) s)
    | _ => (JUndefined, e, s)
    end
  else (JUndefined, e, s).

Definition onDroppableEdgeLeave (e : Event) (s : State) : Outcome :=
  let s := clearInterval (scrollInterval s) s in
  (JUndefined, e, set_scrollContainer JQnull s).

(** The [dnd-data-set] listener, [function (e, type, data)]. *)
Definition onDataSet (e : Event) (type data : JsVal) (s : State) : Outcome :=
  (JUndefined, e, if strict_eq type (dragType s) then set_dragData data s else s).

(** ** CONSTRUCTORS/DESTRUCTORS *)

Definition initializeDraggable (ns : string) (el : Node) (draggableSelector : JsVal)
    (s : State) : State :=
  on el "dragend" ns draggableSelector HonDragEnd
    (on el "dragstart" ns draggableSelector HonDragStart s).

Definition initializeDroppable (ns : string) (el : Node) (droppableSelector : JsVal)
    (s : State) : State :=
  on el "drop" ns droppableSelector HonDragDrop
    (on el "dragleave" ns droppableSelector HonDragLeave
       (on el "dragover" ns droppableSelector HonDragOver
          (on el "dragenter" ns droppableSelector HonDragEnter s))).

Definition destroy (ns : string) (el : Node) (s : State) : State := off el ns s.

(** ** PLUGINS *)

(** The argument of a plugin call: none, a string, or an object with
    its [selector] member ([JUndefined] when it has none). *)
Inductive Options : Type :=
| OptUndefined
| OptString (str : string)
| OptObject (selector : JsVal).

Definition options_truthy (o : Options) : bool :=
  match o with
  | OptUndefined => false
  | OptString str => negb (String.eqb str "")
  | OptObject _ => true
  end.

(** [options.selector] *)
Definition options_selector (o : Options) : JsVal :=
  match o with
  | OptObject sel => sel
  | _ => JUndefined
  end.

(** [options === 'destroy'] *)
Definition is_destroy (o : Options) : bool :=
  match o with
  | OptString str => String.eqb str "destroy"
  | _ => false
  end.

(** The body of [this.each(function () {...})] of a plugin, for the
    namespace, default selector and initializer of its kind.
    [options] is a variable of the enclosing call, so the default
    object one element assigns is what the next element sees. *)
Definition plugin_each (ns default_selector : string)
    (initialize : string → Node → JsVal → State → State)
    (el : Node) (os : Options * State) : Options * State :=
  let '(options, s) := os in
  let initialized := data_get el ns s in
  if is_destroy options then
    if initialized then (options, data_set el ns false (destroy ns el s))
    else (options, s)
  else if negb initialized then
    let options :=
      if options_truthy options then options
      else OptObject (JStr default_selector) in
    (options, data_set el ns true (initialize ns el (options_selector options) s))
  else (options, s).

Definition html5Draggable (this : list Node) (options : Options) (s : State) : State :=
  (foldl (λ os el, plugin_each DEFAULT_DRAG_NAMESPACE DRAGGABLE_SELECTOR
                     initializeDraggable el os) (options, s) this).2.

Definition html5Droppable (this : list Node) (options : Options) (s : State) : State :=
  (foldl (λ os el, plugin_each DEFAULT_DROP_NAMESPACE DROPPABLE_SELECTOR
                     initializeDroppable el os) (options, s) this).2.

(** ** EXTERNAL METHODS: the function the module defers by one tick *)

Definition externalMethods (s : State) : State :=
  let s := on document "dnd-data-set" "" JUndefined HdataSet s in
  let s := html5Draggable [document] OptUndefined s in
  let s := html5Droppable [document] OptUndefined s in
  let s := on document "dragenter" DEFAULT_DROP_NAMESPACE
             (JStr DROPPABLE_EDGE_SELECTOR) HonDroppableEdgeEnter s in
  on document "dragleave" DEFAULT_DROP_NAMESPACE
    (JStr DROPPABLE_EDGE_SELECTOR) HonDroppableEdgeLeave s.

(** The state the module body leaves: the variables as declared and the
    deferred setup pending. *)
Definition load (d : Dom) : State :=
  setTimeout CbExternalMethods
    (mkState JUndefined JUndefined false false None JQundefined d [] [] 1 [] ∅ []).

(** ** The event loop *)

(** A handler called with an event object and the extra arguments of the
    trigger (only [dnd-data-set] has any). *)
Definition handle (h : HandlerName) (e : Event) (args : list JsVal) (s : State)
    : Outcome :=
  match h with
  | HonDragStart => onDragStart e s
  | HonDragEnd => onDragEnd e s
  | HonDragEnter => onDragEnter e s
  | HonDragOver => onDragOver e s
  | HonDragLeave => onDragLeave e s
  | HonDragDrop => onDragDrop e s
  | HonDroppableEdgeEnter => onDroppableEdgeEnter e s
  | HonDroppableEdgeLeave => onDroppableEdgeLeave e s
  | HdataSet => onDataSet e (nth 0 args JUndefined) (nth 1 args JUndefined) s
  end.

Definition runCallback (cb : TimeoutCallback) (s : State) : State :=
  match cb with
  | CbSetDraggingState => setDraggingState s
  | CbClearDraggingState => clearDraggingState s
  | CbExternalMethods => externalMethods s
  end.

(** The oldest pending timeout fires. *)
Definition fireTimeout (s : State) : State :=
  match timeouts s with
  | [] => s
  | (_, cb) :: rest => runCallback cb (set_timeouts rest s)
  end.

(** The interval timer [id] fires, if it is active; an exception in its
    function leaves the state as it is. *)
Definition fireInterval (id : nat) (s : State) : State :=
  match list_find (λ t, t.1 = id) (intervals s) with
  | Some (_, (_, timer)) => default s (scrollStep (scrollDiff timer) s)
  | None => s
  end.

(** What can happen to the module, one at a time. *)
Inductive Input : Type :=
| Deliver (h : HandlerName) (e : Event) (args : list JsVal)
| TimeoutFires
| IntervalFires (id : nat)
| CallDraggable (this : list Node) (options : Options)
| CallDroppable (this : list Node) (options : Options).

Definition step (s : State) (i : Input) : State :=
  match i with
  | Deliver h e args => (handle h e args s).2
  | TimeoutFires => fireTimeout s
  | IntervalFires id => fireInterval id s
  | CallDraggable this options => html5Draggable this options s
  | CallDroppable this options => html5Droppable this options s
  end.

Definition run (s : State) (trace : list Input) : State := foldl step s trace.

(** All pending timeouts fire, oldest first.  No callback sets a
    timeout, so as many firings as there are pending ones empty the
    queue. *)
Definition flush (s : State) : State :=
  Nat.iter (length (timeouts s)) fireTimeout s.

Inductive reachable (d : Dom) : State → Prop :=
| reachable_load : reachable d (load d)
| reachable_step s i : reachable d s → reachable d (step s i).

End Handlers.

Arguments jQuery select d selector : assert.

(** ** Vocabulary of the properties *)

(** The type a draggable declares: [data-draggable], else
    [data-draggable-type]. *)
Definition declaredType (d : Dom) (el : Node) : JsVal :=
  js_or (getAttribute d el "data-draggable") (getAttribute d el "data-draggable-type").

(** The payload a draggable declares, the empty string by default. *)
Definition declaredData (d : Dom) (el : Node) : JsVal :=
  js_or (getAttribute d el "data-draggable-data") (JStr "").

(** The state a drag start at an element with a type has written when it
    comes to the drag image: the payload, the type, the marker class
    and, for an element that opts in, the custom-events flag and the
    triggered [dnd-start]. *)
Definition sessionOpened (e : Event) (s : State) : State :=
  let tgt := target e in
  let type := declaredType (dom s) tgt in
  let data := declaredData (dom s) tgt in
  let s1 := set_dom (classList_add (dom s) tgt DRAGGABLE_DRAGGING_CLASS)
              (set_dragType type (set_dragData data s)) in
  if strict_eq (getAttribute (dom s) tgt "data-draggable-trigger") (JStr "true")
  then trigger (mkTriggered "dnd-start" tgt e type data)
         (set_triggerDraggableEvents true s1)
  else s1.

(** Whether the [setDragImage] call of a drag start at a typed element
    throws: the browser has the method, the element names an image, and
    no element of the document, as it is at the call, has that id. *)
Definition dragImageMissing (getElementById : Dom → string → option Node)
    (e : Event) (s : State) : bool :=
  let image := getAttribute (dom s) (target e) "data-draggable-image" in
  setDragImage_supported (dataTransfer e) && truthy image
  && bool_decide (getElementById
                    (classList_add (dom s) (target e) DRAGGABLE_DRAGGING_CLASS)
                    (js_to_string image) = None).

(** The type a droppable accepts: [data-droppable], else
    [data-droppable-type]. *)
Definition acceptedType (d : Dom) (el : Node) : JsVal :=
  js_or (getAttribute d el "data-droppable") (getAttribute d el "data-droppable-type").

(** The scroll container an edge sentinel declares. *)
Definition edgeContainer (d : Dom) (el : Node) : JsVal :=
  getAttribute d el "data-droppable-edge-container".

(** The four variables that make up the session. *)
Definition session (s : State) : JsVal * JsVal * bool * bool :=
  (dragType s, dragData s, cancelled s, triggerDraggableEvents s).

(** No session data: the variables as the module declares them. *)
Definition session_cleared (s : State) : Prop :=
  session s = (JUndefined, JUndefined, false, false).

(** The global dragging indicator: the value of [data-dragging] on the
    body, if it is there. *)
Definition draggingIndicator (s : State) : option string :=
  attributes (dom s) !! (body, GLOBAL_DRAGGING_ATTR).

(** The inputs that leave the session's type and payload alone: all but a
    drag start and a payload override. *)
Definition keeps_payload (i : Input) : bool :=
  match i with
  | Deliver HonDragStart _ _ | Deliver HdataSet _ _ => false
  | _ => true
  end.

(** [s'] differs from [s] in the listeners and in [$.data] at most. *)
Definition jquery_only (s s' : State) : Prop :=
  s' = set_elemData (elemData s') (set_listeners (listeners s') s).

(** The timers of the browser and the variable that remembers one. *)
Definition timers (s : State)
    : list (nat * TimeoutCallback) * list (nat * IntervalTimer) * nat * option nat :=
  (timeouts s, intervals s, nextTimerId s, scrollInterval s).

(** The shape the timers keep: ids are below the next one to hand out, an
    active interval is the one [scrollInterval] names, [scrollInterval]
    names no pending timeout, and at most one interval is active. *)
Definition timers_wf (s : State) : Prop :=
  (∀ t, t ∈ timeouts s → (t.1 < nextTimerId s)%nat)
  ∧ (∀ t, t ∈ intervals s → scrollInterval s = Some t.1)
  ∧ (∀ i, scrollInterval s = Some i →
          (i < nextTimerId s)%nat ∧ ∀ t, t ∈ timeouts s → t.1 ≠ i)
  ∧ (length (intervals s) ≤ 1)%nat.

(** The amount an edge sentinel scrolls by at each tick. *)
Definition edgeScrollDiff (d : Dom) (el : Node) : Z :=
  if bool_decide (getAttribute d el "data-droppable-edge" = JStr "top")
  then -40 else 40.

(** The indicator as the pending timeouts will leave it: each callback in
    turn, [setDraggingState] writing the type it then finds. *)
Definition indicator_after (type : JsVal) (now : option string)
    (cbs : list TimeoutCallback) : option string :=
  foldl (λ a cb, match cb with
                 | CbSetDraggingState => Some (js_to_string type)
                 | CbClearDraggingState => None
                 | CbExternalMethods => a
                 end) now cbs.

Definition pending_indicator (s : State) : option string :=
  indicator_after (dragType s) (draggingIndicator s) (timeouts s).*2.

(** Whether an input ends in an exception: a drag start at an element
    with a type whose [setDragImage] call throws. *)
Definition throws (getElementById : Dom → string → option Node)
    (s : State) (i : Input) : bool :=
  match i with
  | Deliver HonDragStart e _ =>
      truthy (declaredType (dom s) (target e)) && dragImageMissing getElementById e s
  | _ => false
  end.

(** No input of the trace, run from [s], ends in an exception. *)
Fixpoint completes (getElementById : Dom → string → option Node)
    (select : Dom → string → list Node) (s : State) (trace : list Input) : bool :=
  match trace with
  | [] => true
  | i :: trace =>
      negb (throws getElementById s i)
      && completes getElementById select (step getElementById select s i) trace
  end.

(** The type of the live session after an input, in the life cycle the
    specification gives a session: it is created, with the declared
    type, by a drag start at an element that declares one, it ends at a
    drop and at a drag end, and nothing else touches it.  [now] is the
    type of the session before the input, if there is one. *)
Definition session_after (d : Dom) (now : option string) (i : Input) : option string :=
  match i with
  | Deliver HonDragStart e _ =>
      if truthy (declaredType d (target e))
      then Some (js_to_string (declaredType d (target e))) else now
  | Deliver HonDragEnd _ _ | Deliver HonDragDrop _ _ => None
  | _ => now
  end.

(** The type of the session that is live after a whole trace, if one
    is. *)
Definition live_session (d : Dom) (trace : list Input) : option string :=
  foldl (session_after d) None trace.

(** The attributes of the page are what they were on [d], the global
    dragging attribute aside. *)
Definition attributes_kept (d : Dom) (s : State) : Prop :=
  ∀ el name, name ≠ GLOBAL_DRAGGING_ATTR →
    attributes (dom s) !! (el, name) = attributes d !! (el, name).

(** The two kinds of controller, each with its plugin and its private
    namespace, which is also the key of its flag in [$.data]. *)
Inductive Controller : Type := Draggable | Droppable.

Definition other (k : Controller) : Controller :=
  match k with Draggable => Droppable | Droppable => Draggable end.

Definition namespace_of (k : Controller) : string :=
  match k with
  | Draggable => DEFAULT_DRAG_NAMESPACE
  | Droppable => DEFAULT_DROP_NAMESPACE
  end.

Definition plugin (k : Controller) : list Node → Options → State → State :=
  match k with
  | Draggable => html5Draggable
  | Droppable => html5Droppable
  end.

Definition enabled (k : Controller) (el : Node) (s : State) : bool :=
  data_get el (namespace_of k) s.

(** The listeners jQuery runs for an event of the given type that reaches
    [el]. *)
Definition listeners_for (el : Node) (event : string) (s : State) : list Listener :=
  filter (λ l, lst_element l = el ∧ lst_event l = event) (listeners s).

(** One native event that reaches [el] at an element every selector
    there matches: the listeners run in the order they were added, on
    the one event object; a handler that returns [false] has the
    default prevented and the propagation stopped, and an exception
    ends the delivery. *)
Definition dispatch (getElementById : Dom → string → option Node)
    (select : Dom → string → list Node)
    (el : Node) (event : string) (e : Event) (s : State) : Event * State :=
  (foldl (λ acc l,
            let '(e, s, thrown) := acc in
            if (thrown : bool) then acc else
            let i := Deliver (lst_handler l) e [] in
            let o := handle getElementById select (lst_handler l) e [] s in
            let e' := if strict_eq o.1.1 (JBool false)
                      then stopPropagation (preventDefault o.1.2) else o.1.2 in
            (e', o.2, throws getElementById s i))
     (e, s, false) (listeners_for el event s)).1.

(** ** A page to run the module on *)

Module Page.

Definition card : Node := 10%nat.      (* draggable, type card, payload 42 *)
Definition plain : Node := 11%nat.     (* draggable="true" only *)
Definition cards : Node := 12%nat.     (* droppable for card *)
Definition tasks : Node := 13%nat.     (* droppable for task *)
Definition edgeTop : Node := 14%nat.   (* top sentinel, container window *)
Definition edgeBottom : Node := 15%nat.  (* bottom sentinel, no container *)
Definition edgeList : Node := 16%nat.  (* bottom sentinel, container #list *)
Definition edgeGone : Node := 17%nat.  (* top sentinel, container #gone *)
Definition scroller : Node := 18%nat.  (* the element with id list *)

Definition page : Dom :=
  mkDom
    (list_to_map
       [ ((card, "draggable"), "true");
         ((card, "data-draggable"), "card");
         ((card, "data-draggable-data"), "42");
         ((card, "data-draggable-trigger"), "true");
         ((plain, "draggable"), "true");
         ((cards, "data-droppable"), "card");
         ((tasks, "data-droppable"), "task");
         ((edgeTop, "data-droppable-edge"), "top");
         ((edgeTop, "data-droppable-edge-container"), "window");
         ((edgeBottom, "data-droppable-edge"), "bottom");
         ((edgeList, "data-droppable-edge"), "bottom");
         ((edgeList, "data-droppable-edge-container"), "#list");
         ((edgeGone, "data-droppable-edge"), "top");
         ((edgeGone, "data-droppable-edge-container"), "#gone");
         ((scroller, "id"), "list") ])
    ∅
    (list_to_map [ (Window, 100); (Element scroller, 0) ]).

Definition getElementById (d : Dom) (id : string) : option Node :=
  if String.eqb id "list" then Some scroller else None.

Definition select (d : Dom) (selector : string) : list Node :=
  if String.eqb selector "#list" then [scroller] else [].

(** A native event at [el], as jQuery hands it to a delegated handler. *)
Definition at_ (el : Node) : Event :=
  mkEvent el el false false (mkDataTransfer JUndefined JUndefined [] None true).

(** The module loaded on the page, its deferred setup done. *)
Definition ready : State := flush (load page).

(** A drag of the card has started and its indicator update has run. *)
Definition dragging : State :=
  run getElementById select ready [Deliver HonDragStart (at_ card) []; TimeoutFires].

(** The inputs up to the start of that drag, from the load on. *)
Definition startTrace : list Input :=
  [TimeoutFires; Deliver HonDragStart (at_ card) []].

(** The dragged card enters the droppable for cards and moves over it. *)
Definition hover : list Input :=
  [Deliver HonDragEnter (at_ cards) []; Deliver HonDragOver (at_ cards) []].

(** The dragged card has entered the droppable for tasks. *)
Definition rejected : State :=
  run getElementById select dragging [Deliver HonDragEnter (at_ tasks) []].

(** The dragged card was dropped on the droppable for cards and the
    clearing of the indicator has run, the drag end still to come. *)
Definition dropped : State :=
  run getElementById select dragging
    [Deliver HonDragEnter (at_ cards) []; Deliver HonDragOver (at_ cards) [];
     Deliver HonDragDrop (at_ cards) []; TimeoutFires].

(** The drag has ended as well. *)
Definition ended : State :=
  run getElementById select dropped [Deliver HonDragEnd (at_ card) []; TimeoutFires].

End Page.

(** ** Vocabulary of the further properties *)

(** The inputs that can write each part of the state: the type is written
    by a drag start, the cancellation flag by a drag enter, the
    custom-events flag by a drag start and a drag end, the scroll timer
    and its container by the two edge handlers. *)
Definition writes_type (i : Input) : bool :=
  match i with
  | Deliver HonDragStart _ _ => true
  | _ => false
  end.

Definition writes_cancelled (i : Input) : bool :=
  match i with
  | Deliver HonDragEnter _ _ => true
  | _ => false
  end.

Definition writes_flag (i : Input) : bool :=
  match i with
  | Deliver HonDragStart _ _ | Deliver HonDragEnd _ _ => true
  | _ => false
  end.

Definition touches_scroll_timer (i : Input) : bool :=
  match i with
  | Deliver HonDroppableEdgeEnter _ _ | Deliver HonDroppableEdgeLeave _ _ => true
  | _ => false
  end.

(** The event object as jQuery hands it to a delegated handler at [el]. *)
Definition with_currentTarget (el : Node) (e : Event) : Event :=
  mkEvent (target e) el (defaultPrevented e) (propagationStopped e) (dataTransfer e).

(** jQuery's delivery of one delegated event: the handler runs at each
    matching element from the target outwards, [currentTarget] set to it,
    until propagation has been stopped; a handler that returns [false]
    has the default prevented and the propagation stopped. *)
Fixpoint deliverAlong (h : Event → State → Outcome) (chain : list Node)
    (e : Event) (s : State) : Event * State :=
  match chain with
  | [] => (e, s)
  | el :: rest =>
      if propagationStopped e then (e, s) else
      let o := h (with_currentTarget el e) s in
      let e' := if strict_eq o.1.1 (JBool false)
                then stopPropagation (preventDefault o.1.2) else o.1.2 in
      deliverAlong h rest e' o.2
  end.

(** The events a controller listens to and their handlers, in the order
    its initializer adds them. *)
Definition events_of (k : Controller) : list (string * HandlerName) :=
  match k with
  | Draggable => [("dragstart", HonDragStart); ("dragend", HonDragEnd)]
  | Droppable => [("dragenter", HonDragEnter); ("dragover", HonDragOver);
                  ("dragleave", HonDragLeave); ("drop", HonDragDrop)]
  end.

Definition default_selector (k : Controller) : string :=
  match k with
  | Draggable => DRAGGABLE_SELECTOR
  | Droppable => DROPPABLE_SELECTOR
  end.

(** The selector an enabling call registers its listeners with. *)
Definition selector_of (k : Controller) (o : Options) : JsVal :=
  if options_truthy o then options_selector o else JStr (default_selector k).


(** ** More scenes on the page *)

Module Scenes.

(** The drag of the card has started, its indicator update still
    pending. *)
Definition started : State :=
  run Page.getElementById Page.select Page.ready
    [Deliver HonDragStart (Page.at_ Page.card) []].

(** The dragged card is over the top sentinel and the window scrolls. *)
Definition scrolling : State :=
  run Page.getElementById Page.select Page.dragging
    [Deliver HonDroppableEdgeEnter (Page.at_ Page.edgeTop) []].

(** The card is dropped on the droppable for cards and the drag ends,
    with the two timeouts that follow. *)
Definition finish : list Input :=
  [Deliver HonDragDrop (Page.at_ Page.cards) []; TimeoutFires;
   Deliver HonDragEnd (Page.at_ Page.card) []; TimeoutFires].

(** The card is over the droppable for cards and the application
    overrides its payload. *)
Definition overridden : list Input :=
  Page.hover ++ [Deliver HdataSet (Page.at_ document) [JStr "card"; JRef 7]].

(** Both controllers are destroyed on the document. *)
Definition teardown : list Input :=
  [CallDraggable [document] (OptString "destroy");
   CallDroppable [document] (OptString "destroy")].

(** A page with one draggable that names the element with id list as its
    drag image. *)
Definition photo : Node := 20%nat.

Definition gallery : Dom :=
  mkDom
    (list_to_map
       [ ((photo, "data-draggable-type"), "photo");
         ((photo, "data-draggable-image"), "list") ])
    ∅ ∅.

(** A page with one draggable that names as its drag image an id no
    element has. *)
Definition orphan : Node := 21%nat.

Definition album : Dom :=
  mkDom
    (list_to_map
       [ ((orphan, "data-draggable"), "photo");
         ((orphan, "data-draggable-image"), "nosuch") ])
    ∅ ∅.

(** The module is set up and the drag of that element starts. *)
Definition orphanTrace : list Input :=
  [TimeoutFires; Deliver HonDragStart (Page.at_ orphan) []].

End Scenes.

(** * Properties *)

(** ** JavaScript values *)

Lemma strict_eq_decide (a b : JsVal) : strict_eq a b = bool_decide (a = b).
Proof.
  destruct a as [| |x|x|x|x], b as [| |y|y|y|y]; simpl; try done.
  - destruct x, y; done.
  - destruct (Z.eqb_spec x y); case_bool_decide; congruence.
  - destruct (String.eqb_spec x y); case_bool_decide; congruence.
  - destruct (Nat.eqb_spec x y); case_bool_decide; congruence.
Qed.

Lemma truthy_JStr (v : JsVal) :
  (v = JNull ∨ ∃ str, v = JStr str) → truthy v = true → ∃ str, v = JStr str ∧ str ≠ "".
Proof.
  intros [-> | [str ->]]; simpl; [done |].
  destruct (String.eqb_spec str ""); [done |]. eauto.
Qed.

Lemma getAttribute_cases (d : Dom) (el : Node) (name : string) :
  getAttribute d el name = JNull ∨ ∃ str, getAttribute d el name = JStr str.
Proof. unfold getAttribute. destruct (_ !! _); eauto. Qed.

(** ** Drag enter *)

(** C1.  A drag enter at a droppable sets [cancelled] to whether the type
    the element accepts differs from the type of the session, whatever
    [cancelled] was before.  When it is cancelled nothing else changes
    and the event goes on propagating; when it is accepted the drop
    effect becomes move, the element gets the hover class and
    propagation stops. *)
Theorem onDragEnter_gates_on_type (e : Event) (s : State) :
  let a := acceptedType (dom s) (currentTarget e) in
  let T := dragType s in
  let o := onDragEnter e s in
  cancelled o.2 = bool_decide (a ≠ T)
  ∧ (if cancelled o.2
     then o = (JUndefined, e, set_cancelled true s)
     else dropEffect (dataTransfer o.1.2) = JStr "move"
          ∧ hasClass (dom o.2) (currentTarget e) DROPPABLE_HOVER_CLASS = true
          ∧ propagationStopped o.1.2 = true
          ∧ session o.2 = (T, dragData s, false, triggerDraggableEvents s)
          ∧ triggered o.2 = triggered s)
  ∧ (∀ b, onDragEnter e (set_cancelled b s) = onDragEnter e s).
Proof.
  intros a T o.
  assert (Ho : o = if bool_decide (a = T)
                   then (JUndefined,
                         stopPropagation
                           (with_dataTransfer (set_dropEffect (JStr "move")) e),
                         set_dom (classList_add (dom s) (currentTarget e)
                                    DROPPABLE_HOVER_CLASS) (set_cancelled false s))
                   else (JUndefined, e, set_cancelled true s)).
  { subst o. unfold onDragEnter. fold (acceptedType (dom s) (currentTarget e)).
    fold a. simpl. fold T. rewrite strict_eq_decide. by case_bool_decide. }
  split; [| split].
  - rewrite Ho. destruct (decide (a = T)) as [Heq | Hne].
    + rewrite bool_decide_eq_true_2 by done. simpl.
      symmetry. apply bool_decide_eq_false_2. by intros ?.
    + rewrite bool_decide_eq_false_2 by done. simpl.
      symmetry. by apply bool_decide_eq_true_2.
  - rewrite Ho. case_bool_decide; simpl; [| done].
    repeat split.
    unfold hasClass. apply bool_decide_eq_true_2. set_solver.
  - intros b. reflexivity.
Qed.

(** ** Drag start *)

Lemma declaredData_default (d : Dom) (el : Node) :
  declaredData d el = JStr (default "" (attributes d !! (el, "data-draggable-data"))).
Proof.
  unfold declaredData, getAttribute, js_or.
  destruct (attributes d !! _) as [v |]; simpl; [| done].
  by destruct (String.eqb_spec v "") as [-> |].
Qed.

Lemma declaredType_cases (d : Dom) (el : Node) :
  declaredType d el = JNull ∨ ∃ str, declaredType d el = JStr str.
Proof.
  unfold declaredType, js_or.
  destruct (truthy _); apply getAttribute_cases.
Qed.

Lemma sessionOpened_fields (e : Event) (s : State) :
  let s1 := sessionOpened e s in
  dragType s1 = declaredType (dom s) (target e)
  ∧ dragData s1 = declaredData (dom s) (target e)
  ∧ cancelled s1 = cancelled s
  ∧ dom s1 = classList_add (dom s) (target e) DRAGGABLE_DRAGGING_CLASS
  ∧ timers s1 = timers s
  ∧ scrollContainer s1 = scrollContainer s
  ∧ listeners s1 = listeners s.
Proof. unfold sessionOpened. simpl. by destruct (strict_eq _ _). Qed.

Section DragStart.

Variable getElementById : Dom → string → option Node.

(** The state a drag start leaves: nothing written without a type; with
    one, what is written up to the drag image and then, unless the call
    of [setDragImage] throws, the timeout that sets the indicator. *)
Lemma onDragStart_state (e : Event) (s : State) :
  (onDragStart getElementById e s).2
  = if truthy (declaredType (dom s) (target e))
    then if dragImageMissing getElementById e s
         then sessionOpened e s
         else setTimeout CbSetDraggingState (sessionOpened e s)
    else s.
Proof.
  unfold onDragStart, dragImageMissing, sessionOpened.
  fold (declaredType (dom s) (target e)). fold (declaredData (dom s) (target e)).
  destruct (truthy (declaredType _ _)); simpl; [| done].
  destruct (strict_eq _ _); simpl;
    destruct (setDragImage_supported _); simpl; try done;
    destruct (truthy (getAttribute _ _ "data-draggable-image")); simpl; try done;
    destruct (getElementById _ _); simpl; done.
Qed.

(** C2.  A drag start at an element whose resolved type is empty or
    absent returns at once: the event object and the whole state (the
    session variables, the class lists, the triggered events, the pending
    timeouts that would set the indicator) are as before.  At an element
    with a type the session gets that type, a non-empty string, and the
    declared payload, the empty string when none is declared; the timeout
    that sets the indicator is added unless the call of [setDragImage]
    throws. *)
Theorem onDragStart_opens_session (e : Event) (s : State) :
  let type := declaredType (dom s) (target e) in
  let o := onDragStart getElementById e s in
  if truthy type
  then dragType o.2 = type
       ∧ (∃ str, type = JStr str ∧ str ≠ "")
       ∧ dragData o.2
         = JStr (default "" (attributes (dom s) !! (target e, "data-draggable-data")))
       ∧ hasClass (dom o.2) (target e) DRAGGABLE_DRAGGING_CLASS = true
       ∧ timeouts o.2
         = (if dragImageMissing getElementById e s then timeouts s
            else timeouts s ++ [(nextTimerId s, CbSetDraggingState)])
  else o = (JUndefined, e, s).
Proof.
  intros type o.
  pose proof (onDragStart_state e s) as Hs. fold type in Hs. fold o in Hs.
  destruct (truthy type) eqn:Htype.
  - rewrite Hs.
    destruct (sessionOpened_fields e s) as (Hty & Hdata & _ & Hdom & Htimers & _).
    injection Htimers as Hto _ Hnext _.
    assert (Hmark : hasClass (dom (sessionOpened e s)) (target e)
                      DRAGGABLE_DRAGGING_CLASS = true).
    { rewrite Hdom. unfold hasClass. apply bool_decide_eq_true_2. simpl.
      rewrite elem_of_union, elem_of_singleton. by left. }
    rewrite <- declaredData_default.
    split; [by destruct (dragImageMissing getElementById e s) |].
    split; [apply truthy_JStr; [apply declaredType_cases | done] |].
    split; [by destruct (dragImageMissing getElementById e s) |].
    split; [by destruct (dragImageMissing getElementById e s) |].
    destruct (dragImageMissing getElementById e s); [done |].
    unfold setTimeout. simpl. by rewrite Hto, Hnext.
  - subst o. unfold onDragStart. fold (declaredType (dom s) (target e)).
    fold type. by rewrite Htype.
Qed.

End DragStart.

(** ** Drag end *)

Lemma onDragEnd_session (e : Event) (s : State) :
  session (onDragEnd e s).2 = (dragType s, dragData s, cancelled s, false).
Proof.
  unfold onDragEnd, session. simpl.
  destruct (triggerDraggableEvents s) eqn:Hflag; simpl; by rewrite ?Hflag.
Qed.

Lemma onDragEnd_triggered (e : Event) (s : State) :
  triggered (onDragEnd e s).2
  = if triggerDraggableEvents s
    then triggered s ++ [mkTriggered "dnd-end" (target e) e (dragType s) (dragData s)]
    else triggered s.
Proof. unfold onDragEnd. simpl. by destruct (triggerDraggableEvents s). Qed.

(** C3, as the code has it.  A drag end takes the marker class off the
    dragged element, triggers [dnd-end] with the type and the payload
    of the session exactly when the custom-events flag is up, puts that
    flag back to false, and sets the timeout that clears the indicator.
    It leaves the type, the payload and the cancellation flag of the
    session as they are.  On the session it is idempotent, and a second
    drag end triggers no event. *)
Theorem onDragEnd_keeps_session (e e' : Event) (s : State) :
  let s1 := (onDragEnd e s).2 in
  let s2 := (onDragEnd e' s1).2 in
  session s1 = (dragType s, dragData s, cancelled s, false)
  ∧ triggered s1
    = (if triggerDraggableEvents s
       then triggered s
            ++ [mkTriggered "dnd-end" (target e) e (dragType s) (dragData s)]
       else triggered s)
  ∧ hasClass (dom s1) (target e) DRAGGABLE_DRAGGING_CLASS = false
  ∧ timeouts s1 = timeouts s ++ [(nextTimerId s, CbClearDraggingState)]
  ∧ session s2 = session s1
  ∧ triggered s2 = triggered s1.
Proof.
  intros s1 s2. subst s2.
  pose proof (onDragEnd_session e s) as H1. fold s1 in H1.
  split; [done |].
  split; [apply onDragEnd_triggered |].
  split.
  { subst s1. unfold onDragEnd, hasClass. simpl.
    apply bool_decide_eq_false_2.
    destruct (triggerDraggableEvents s); simpl;
      rewrite elem_of_difference, elem_of_singleton; tauto. }
  split.
  { subst s1. unfold onDragEnd. simpl. by destruct (triggerDraggableEvents s). }
  split.
  - rewrite onDragEnd_session, H1. unfold session in H1. congruence.
  - rewrite onDragEnd_triggered.
    replace (triggerDraggableEvents s1) with false; [done |].
    unfold session in H1. congruence.
Qed.

(** ** Drag over *)

(** C8.  A drag over changes nothing in the state, so it triggers no event.
    When the session is not cancelled it prevents the default action and
    returns false; when it is cancelled it returns nothing and leaves
    the event object alone. *)
Theorem onDragOver_accepts_unless_cancelled (e : Event) (s : State) :
  let o := onDragOver e s in
  o.2 = s
  ∧ triggered o.2 = triggered s
  ∧ (if cancelled s
     then o.1.1 = JUndefined ∧ o.1.2 = e
     else o.1.1 = JBool false ∧ o.1.2 = preventDefault e
          ∧ defaultPrevented o.1.2 = true).
Proof. unfold onDragOver. by destruct (cancelled s). Qed.

(** ** Drop *)

(** C9.  A drop looks neither at the type the element accepts nor at
    whether a drag was started: in every state it stops propagation,
    prevents the default, takes the hover class off the element and
    triggers one [dnd-drop] with the type and the payload the variables
    hold, which are undefined in the state the module starts in. *)
Theorem onDragDrop_unconditional (e : Event) (s : State) :
  let o := onDragDrop e s in
  propagationStopped o.1.2 = true
  ∧ defaultPrevented o.1.2 = true
  ∧ hasClass (dom o.2) (currentTarget e) DROPPABLE_HOVER_CLASS = false
  ∧ triggered o.2
    = triggered s
      ++ [mkTriggered "dnd-drop" (currentTarget e) o.1.2 (dragType s) (dragData s)]
  ∧ session o.2 = session s
  ∧ (∀ d, let o0 := onDragDrop e (flush (load d)) in
          (trig_dragType <$> last (triggered o0.2)) = Some JUndefined
          ∧ (trig_dragData <$> last (triggered o0.2)) = Some JUndefined).
Proof.
  intros o.
  repeat match goal with |- _ ∧ _ => split end; try reflexivity.
  - unfold hasClass. apply bool_decide_eq_false_2. subst o. simpl.
    rewrite elem_of_difference, elem_of_singleton. tauto.
  - intros d. split; reflexivity.
Qed.

(** C3, as the claim has it, fails.  The card is dragged over the
    droppable for tasks and the drag ends: the variables still hold the
    type, the payload and the cancellation of that drag. *)
Lemma onDragEnd_clears_nothing :
  session (onDragEnd (Page.at_ Page.card) Page.rejected).2
    = (JStr "card", JStr "42", true, false)
  ∧ ¬ session_cleared (onDragEnd (Page.at_ Page.card) Page.rejected).2.
Proof.
  assert (H : session (onDragEnd (Page.at_ Page.card) Page.rejected).2
              = (JStr "card", JStr "42", true, false)) by (vm_compute; reflexivity).
  split; [exact H |]. unfold session_cleared. rewrite H. discriminate.
Qed.

(** ** What the plugins touch *)

Lemma jquery_only_refl (s : State) : jquery_only s s.
Proof. by destruct s. Qed.

Lemma jquery_only_trans (s1 s2 s3 : State) :
  jquery_only s1 s2 → jquery_only s2 s3 → jquery_only s1 s3.
Proof. unfold jquery_only. intros H12 H23. rewrite H23, H12. done. Qed.

Lemma jquery_only_on el event ns sel h s : jquery_only s (on el event ns sel h s).
Proof. by destruct s. Qed.

Lemma jquery_only_off el ns s : jquery_only s (off el ns s).
Proof. by destruct s. Qed.

Lemma jquery_only_data_set el key v s : jquery_only s (data_set el key v s).
Proof. by destruct s. Qed.

Ltac jquery_only_peel :=
  repeat first
    [ apply jquery_only_refl
    | eapply jquery_only_trans;
      [| first [apply jquery_only_on | apply jquery_only_off
               | apply jquery_only_data_set]] ].

Lemma jquery_only_initializeDraggable ns el sel s :
  jquery_only s (initializeDraggable ns el sel s).
Proof. unfold initializeDraggable. jquery_only_peel. Qed.

Lemma jquery_only_initializeDroppable ns el sel s :
  jquery_only s (initializeDroppable ns el sel s).
Proof. unfold initializeDroppable. jquery_only_peel. Qed.

Lemma jquery_only_plugin_each ns dflt init el os :
  (∀ ns el sel s, jquery_only s (init ns el sel s)) →
  jquery_only os.2 (plugin_each ns dflt init el os).2.
Proof.
  intros Hinit. destruct os as [o s]. unfold plugin_each, destroy.
  repeat case_match; simpl; jquery_only_peel; apply Hinit.
Qed.

Lemma jquery_only_plugin ns dflt init this os :
  (∀ ns el sel s, jquery_only s (init ns el sel s)) →
  jquery_only os.2 (foldl (λ os el, plugin_each ns dflt init el os) os this).2.
Proof.
  intros Hinit. revert os.
  induction this as [| el this IH]; intros os; simpl; [apply jquery_only_refl |].
  eapply jquery_only_trans; [| apply IH]. by apply jquery_only_plugin_each.
Qed.

Lemma jquery_only_html5Draggable this o s : jquery_only s (html5Draggable this o s).
Proof.
  apply (jquery_only_plugin _ _ _ this (o, s)), jquery_only_initializeDraggable.
Qed.

Lemma jquery_only_html5Droppable this o s : jquery_only s (html5Droppable this o s).
Proof.
  apply (jquery_only_plugin _ _ _ this (o, s)), jquery_only_initializeDroppable.
Qed.

Lemma jquery_only_externalMethods s : jquery_only s (externalMethods s).
Proof.
  unfold externalMethods.
  repeat (eapply jquery_only_trans;
          [| first [apply jquery_only_on | apply jquery_only_html5Droppable
                   | apply jquery_only_html5Draggable]]).
  apply jquery_only_refl.
Qed.

(** The fields a change of listeners and [$.data] leaves alone. *)
Lemma jquery_only_fields (s s' : State) :
  jquery_only s s' →
  session s' = session s ∧ dom s' = dom s ∧ timeouts s' = timeouts s
  ∧ intervals s' = intervals s ∧ nextTimerId s' = nextTimerId s
  ∧ scrollInterval s' = scrollInterval s ∧ scrollContainer s' = scrollContainer s
  ∧ triggered s' = triggered s.
Proof. intros ->. done. Qed.

(** ** Timers *)

Lemma filter_all {A} (P : A → Prop) `{∀ x, Decision (P x)} (l : list A) :
  (∀ x, x ∈ l → P x) → filter P l = l.
Proof.
  induction l as [| x l IH]; intros Hall; [done |].
  rewrite filter_cons_True by (apply Hall; left).
  f_equal. apply IH. intros y Hy. apply Hall. by right.
Qed.

Lemma filter_none {A} (P : A → Prop) `{∀ x, Decision (P x)} (l : list A) :
  (∀ x, x ∈ l → ¬ P x) → filter P l = [].
Proof.
  induction l as [| x l IH]; intros Hnone; [done |].
  rewrite filter_cons_False by (apply Hnone; left).
  apply IH. intros y Hy. apply Hnone. by right.
Qed.

Lemma timers_wf_ext (s s' : State) : timers s' = timers s → timers_wf s → timers_wf s'.
Proof.
  unfold timers, timers_wf. intros [= -> -> -> ->]. done.
Qed.

Lemma timers_wf_no_interval (s : State) :
  timers_wf s → scrollInterval s = None → intervals s = [].
Proof.
  intros (_ & Hint & _) Hnone. destruct (intervals s) as [| t l]; [done |].
  specialize (Hint t (list_elem_of_here _ _)). congruence.
Qed.

(** In a well-formed state [clearInterval(scrollInterval)] cancels the
    active interval, if there is one, and no timeout. *)
Lemma clearInterval_scrollInterval (s : State) :
  timers_wf s → clearInterval (scrollInterval s) s = set_intervals [] s.
Proof.
  intros Hwf. unfold clearInterval.
  destruct (scrollInterval s) as [i |] eqn:Hi.
  - destruct Hwf as (_ & Hint & Hsi & _).
    rewrite (filter_none _ (intervals s)), (filter_all _ (timeouts s));
      [by destruct s | |].
    + intros t Ht. by apply (Hsi i).
    + intros t Ht Hne. apply Hint in Ht. congruence.
  - rewrite <- (timers_wf_no_interval s Hwf Hi). by destruct s.
Qed.

Ltac split_timers_wf :=
  unfold timers_wf; simpl; split; [| split; [| split]].

Lemma timers_wf_setTimeout cb s : timers_wf s → timers_wf (setTimeout cb s).
Proof.
  intros (Hto & Hint & Hsi & Hlen). unfold setTimeout. split_timers_wf.
  - intros t [Ht | ->%list_elem_of_singleton]%elem_of_app; [| simpl; lia].
    apply Hto in Ht. lia.
  - done.
  - intros i [Hlt Hne]%Hsi. split; [lia |].
    intros t [Ht | ->%list_elem_of_singleton]%elem_of_app; [by apply Hne |].
    simpl. lia.
  - done.
Qed.

Section Machine.

Variable getElementById : Dom → string → option Node.
Variable select : Dom → string → list Node.

Local Abbreviation handle := (handle getElementById select).
Local Abbreviation step := (step getElementById select).
Local Abbreviation run := (run getElementById select).
Local Abbreviation reachable := (reachable getElementById select).
Local Abbreviation onDroppableEdgeEnter := (onDroppableEdgeEnter select).
Local Abbreviation jQuery := (jQuery select).

(** *** The three ways a drag enter at an edge sentinel goes *)

Lemma onDroppableEdgeEnter_undeclared (e : Event) (s : State) :
  truthy (edgeContainer (dom s) (currentTarget e)) = false →
  onDroppableEdgeEnter e s = (JUndefined, e, s).
Proof.
  intros Hsel. unfold onDroppableEdgeEnter.
  fold (edgeContainer (dom s) (currentTarget e)). by rewrite Hsel.
Qed.

Lemma onDroppableEdgeEnter_unresolved (e : Event) (s : State) :
  truthy (edgeContainer (dom s) (currentTarget e)) = true →
  jQuery (dom s) (edgeContainer (dom s) (currentTarget e)) = [] →
  onDroppableEdgeEnter e s = (JUndefined, e, set_scrollContainer (JQset []) s).
Proof.
  intros Hsel Hnone. unfold onDroppableEdgeEnter.
  fold (edgeContainer (dom s) (currentTarget e)). rewrite Hsel. simpl.
  by rewrite Hnone.
Qed.

Lemma onDroppableEdgeEnter_resolved (e : Event) (s : State) first rest :
  truthy (edgeContainer (dom s) (currentTarget e)) = true →
  jQuery (dom s) (edgeContainer (dom s) (currentTarget e)) = first :: rest →
  onDroppableEdgeEnter e s
  = (JUndefined, e,
     set_scrollInterval (Some (nextTimerId s))
       (setInterval
          (mkIntervalTimer SCROLL_INTERVAL (edgeScrollDiff (dom s) (currentTarget e)))
          (clearInterval (scrollInterval s)
             (set_scrollContainer (JQset (first :: rest)) s))).2).
Proof.
  intros Hsel Hsome. unfold onDroppableEdgeEnter.
  fold (edgeContainer (dom s) (currentTarget e)). rewrite Hsel. simpl.
  rewrite Hsome. unfold edgeScrollDiff. rewrite strict_eq_decide.
  by destruct (scrollInterval s).
Qed.

(** *** The shape of the timers is kept *)

Lemma timers_wf_load (d : Dom) : timers_wf (load d).
Proof.
  unfold load. split_timers_wf.
  - intros t ->%list_elem_of_singleton. simpl. lia.
  - intros t Ht. by apply elem_of_nil in Ht.
  - done.
  - lia.
Qed.

Lemma timers_wf_edge_start (s : State) (c : JQuery) (diff : IntervalTimer) :
  timers_wf s →
  timers_wf (set_scrollInterval (Some (nextTimerId s))
               (setInterval diff
                  (clearInterval (scrollInterval s) (set_scrollContainer c s))).2).
Proof.
  intros Hwf.
  assert (Hwf' : timers_wf (set_scrollContainer c s))
    by (by apply (timers_wf_ext s)).
  change (scrollInterval s) with (scrollInterval (set_scrollContainer c s)).
  rewrite (clearInterval_scrollInterval _ Hwf').
  destruct Hwf as (Hto & Hint & Hsi & Hlen).
  split_timers_wf.
  - intros t Ht. apply Hto in Ht. lia.
  - by intros t ->%list_elem_of_singleton.
  - intros i [= <-]. split; [lia |]. intros t Ht. apply Hto in Ht. lia.
  - done.
Qed.

Lemma timers_wf_edge_stop (s : State) (c : JQuery) :
  timers_wf s →
  timers_wf (set_scrollContainer c (clearInterval (scrollInterval s) s)).
Proof.
  intros Hwf. rewrite (clearInterval_scrollInterval _ Hwf).
  destruct Hwf as (Hto & Hint & Hsi & Hlen).
  split_timers_wf.
  - done.
  - intros t Ht. by apply elem_of_nil in Ht.
  - done.
  - lia.
Qed.

Lemma timers_wf_handle h e args s : timers_wf s → timers_wf (handle h e args s).2.
Proof.
  intros Hwf. destruct h; simpl.
  - rewrite onDragStart_state. destruct (truthy _); [| done].
    destruct (sessionOpened_fields e s) as (_ & _ & _ & _ & Htimers & _).
    destruct (dragImageMissing _ _ _).
    + by apply (timers_wf_ext s).
    + by apply timers_wf_setTimeout, (timers_wf_ext s).
  - unfold onDragEnd. simpl.
    case_match; by apply timers_wf_setTimeout, (timers_wf_ext s).
  - unfold onDragEnter. simpl. case_match; by apply (timers_wf_ext s).
  - unfold onDragOver. by case_match.
  - by apply (timers_wf_ext s).
  - by apply timers_wf_setTimeout, (timers_wf_ext s).
  - destruct (truthy (edgeContainer (dom s) (currentTarget e))) eqn:Hsel;
      [| by rewrite onDroppableEdgeEnter_undeclared].
    destruct (jQuery (dom s) (edgeContainer (dom s) (currentTarget e)))
      as [| first rest] eqn:Hset.
    + rewrite onDroppableEdgeEnter_unresolved by done. by apply (timers_wf_ext s).
    + rewrite (onDroppableEdgeEnter_resolved _ _ first rest) by done.
      by apply timers_wf_edge_start.
  - by apply timers_wf_edge_stop.
  - unfold onDataSet. simpl. case_match; [by apply (timers_wf_ext s) | done].
Qed.

Lemma timers_fireTimeout (s : State) :
  timers (fireTimeout s) = (tail (timeouts s), intervals s, nextTimerId s, scrollInterval s).
Proof.
  unfold fireTimeout. destruct (timeouts s) as [| [id cb] rest] eqn:Hto.
  - unfold timers. by rewrite Hto.
  - destruct cb; simpl; [done | done |].
    pose proof (jquery_only_fields _ _ (jquery_only_externalMethods (set_timeouts rest s)))
      as (_ & _ & Ht & Hi & Hn & Hs & _).
    unfold timers. by rewrite Ht, Hi, Hn, Hs.
Qed.

Lemma timers_wf_fireTimeout (s : State) : timers_wf s → timers_wf (fireTimeout s).
Proof.
  intros (Hto & Hint & Hsi & Hlen).
  pose proof (timers_fireTimeout s) as [= Ht Hi Hn Hs].
  unfold timers_wf. rewrite Ht, Hi, Hn, Hs.
  assert (Hsub : ∀ t, t ∈ tail (timeouts s) → t ∈ timeouts s).
  { intros t. destruct (timeouts s); [done |]. by right. }
  split; [| split; [| split]]; try done.
  - intros t Ht'. by apply Hto, Hsub.
  - intros i [Hlt Hne]%Hsi. split; [done |]. intros t Ht'. by apply Hne, Hsub.
Qed.

Lemma fireInterval_dom (id : nat) (s : State) :
  fireInterval id s = set_dom (dom (fireInterval id s)) s
  ∧ attributes (dom (fireInterval id s)) = attributes (dom s)
  ∧ classList (dom (fireInterval id s)) = classList (dom s).
Proof.
  unfold fireInterval, scrollStep.
  destruct (list_find _ _) as [[? [? diff]] |]; [| by destruct s].
  destruct (scrollContainer s) as [| | [| first rest]]; by destruct s.
Qed.

Lemma timers_wf_fireInterval id s : timers_wf s → timers_wf (fireInterval id s).
Proof.
  destruct (fireInterval_dom id s) as (Hs & _). rewrite Hs.
  by apply timers_wf_ext.
Qed.

Lemma timers_wf_step s i : timers_wf s → timers_wf (step s i).
Proof.
  intros Hwf. destruct i as [h e args | | id | this o | this o]; simpl.
  - by apply timers_wf_handle.
  - by apply timers_wf_fireTimeout.
  - by apply timers_wf_fireInterval.
  - pose proof (jquery_only_html5Draggable this o s) as Hjq. rewrite Hjq.
    by apply (timers_wf_ext s).
  - pose proof (jquery_only_html5Droppable this o s) as Hjq. rewrite Hjq.
    by apply (timers_wf_ext s).
Qed.

Lemma reachable_timers_wf d s : reachable d s → timers_wf s.
Proof.
  induction 1 as [| s i _ IH]; [apply timers_wf_load | by apply timers_wf_step].
Qed.

End Machine.

(** ** Edge scrolling *)

Lemma scrollTop_set_elem (d : Dom) (els : list ScrollTarget) (v : Z) (t : ScrollTarget) :
  t ∈ els → scrollTop_of (scrollTop_set d els v) t = v.
Proof.
  unfold scrollTop_of, scrollTop_set. simpl.
  induction els as [| t' els IH]; intros Ht; [by apply elem_of_nil in Ht |].
  simpl. destruct (decide (t' = t)) as [-> | Hne].
  - by rewrite lookup_insert_eq.
  - rewrite lookup_insert_ne by done. apply IH.
    apply elem_of_cons in Ht as [-> | Ht]; done.
Qed.

Section EdgeScroll.

Variable getElementById : Dom → string → option Node.
Variable select : Dom → string → list Node.

Local Abbreviation step := (step getElementById select).
Local Abbreviation run := (run getElementById select).
Local Abbreviation reachable := (reachable getElementById select).
Local Abbreviation onDroppableEdgeEnter := (onDroppableEdgeEnter select).
Local Abbreviation jQuery := (jQuery select).

Lemma reachable_run d s trace : reachable d s → reachable d (run s trace).
Proof.
  revert s. induction trace as [| i trace IH]; intros s Hs; [done |].
  apply IH. by constructor.
Qed.

(** One tick of the only active interval scrolls every element of the
    container to the offset of the first one plus the difference. *)
Lemma fireInterval_active (s : State) id timer first rest :
  intervals s = [(id, timer)] →
  scrollContainer s = JQset (first :: rest) →
  fireInterval id s
  = set_dom (scrollTop_set (dom s) (first :: rest)
               (scrollTop_of (dom s) first + scrollDiff timer)) s.
Proof.
  intros Hint Hc. unfold fireInterval, scrollStep. rewrite Hint, Hc. simpl.
  by rewrite decide_True.
Qed.

Lemma fireInterval_ticks (s : State) id timer first rest (n : nat) :
  intervals s = [(id, timer)] →
  scrollContainer s = JQset (first :: rest) →
  let sn := Nat.iter n (fireInterval id) s in
  intervals sn = [(id, timer)]
  ∧ scrollContainer sn = JQset (first :: rest)
  ∧ scrollTop_of (dom sn) first
    = scrollTop_of (dom s) first + Z.of_nat n * scrollDiff timer.
Proof.
  intros Hint Hc. induction n as [| n (IHi & IHc & IHt)]; simpl.
  - repeat split; try done. lia.
  - rewrite (fireInterval_active _ id timer first rest) by done. simpl.
    repeat split; try done.
    rewrite scrollTop_set_elem by left. rewrite IHt. lia.
Qed.

Lemma fireInterval_idle (s : State) (ticks : list nat) :
  intervals s = [] → run s (IntervalFires <$> ticks) = s.
Proof.
  intros Hint. induction ticks as [| id ticks IH]; [done |].
  simpl. unfold fireInterval. rewrite Hint. simpl. exact IH.
Qed.

(** C6.  In every state the module reaches at most one interval timer is
    active.  A drag enter at an edge sentinel that declares a container
    starts no timer when no element matches; when one does it leaves
    exactly one active timer, the new one, whatever ran before, and each
    tick of it moves the offset of the container by -40 for a top
    sentinel and by 40 otherwise.  A drag leave at a sentinel leaves no
    active timer and sets the remembered container to null. *)
Theorem edge_scroll_single_timer (d : Dom) (s : State) (e e' : Event) (n : nat) :
  reachable d s →
  truthy (edgeContainer (dom s) (currentTarget e)) = true →
  let o := onDroppableEdgeEnter e s in
  let id := nextTimerId s in
  let diff :=
    if bool_decide (getAttribute (dom s) (currentTarget e) "data-droppable-edge"
                    = JStr "top")
    then -40 else 40 in
  (length (intervals s) ≤ 1)%nat
  ∧ match jQuery (dom s) (edgeContainer (dom s) (currentTarget e)) with
    | [] => timers o.2 = timers s
    | first :: rest =>
        intervals o.2 = [(id, mkIntervalTimer SCROLL_INTERVAL diff)]
        ∧ scrollInterval o.2 = Some id
        ∧ scrollTop_of (dom (Nat.iter n (fireInterval id) o.2)) first
          = scrollTop_of (dom s) first + Z.of_nat n * diff
    end
  ∧ intervals (onDroppableEdgeLeave e' o.2).2 = []
  ∧ scrollContainer (onDroppableEdgeLeave e' o.2).2 = JQnull
  ∧ intervals (onDroppableEdgeLeave e' s).2 = []
  ∧ scrollContainer (onDroppableEdgeLeave e' s).2 = JQnull.
Proof.
  intros Hreach Hsel o id diff.
  pose proof (reachable_timers_wf _ _ _ _ Hreach) as Hwf.
  assert (Hwf' : timers_wf o.2).
  { apply (timers_wf_handle getElementById select HonDroppableEdgeEnter e [] s Hwf). }
  assert (Hleave : ∀ s0, timers_wf s0 →
            intervals (onDroppableEdgeLeave e' s0).2 = []
            ∧ scrollContainer (onDroppableEdgeLeave e' s0).2 = JQnull).
  { intros s0 H0. unfold onDroppableEdgeLeave. simpl.
    by rewrite (clearInterval_scrollInterval _ H0). }
  split; [apply Hwf |].
  split; [| by split; [apply Hleave | split; [apply Hleave | apply Hleave]]].
  destruct (jQuery (dom s) (edgeContainer (dom s) (currentTarget e)))
    as [| first rest] eqn:Hset.
  - subst o. by rewrite onDroppableEdgeEnter_unresolved.
  - assert (Ho : o.2 = set_scrollInterval (Some id)
                   (setInterval (mkIntervalTimer SCROLL_INTERVAL diff)
                      (set_intervals [] (set_scrollContainer (JQset (first :: rest)) s))).2).
    { subst o. rewrite (onDroppableEdgeEnter_resolved _ _ _ first rest) by done.
      simpl.
      change (scrollInterval s)
        with (scrollInterval (set_scrollContainer (JQset (first :: rest)) s)).
      rewrite clearInterval_scrollInterval; [done |].
      by apply (timers_wf_ext s). }
    rewrite Ho. split; [done |]. split; [done |].
    set (s1 := set_scrollInterval _ _).
    by destruct (fireInterval_ticks s1 id (mkIntervalTimer SCROLL_INTERVAL diff)
                   first rest n) as (_ & _ & Hn).
Qed.

(** C10.  A drag enter at an edge sentinel looks for the container in the
    sentinel's own attribute only.  When the sentinel declares none the
    handler changes nothing: no timer starts, and when no timer was
    active no tick ever moves an offset. *)
Theorem edge_without_container_is_inert (s : State) (e : Event) (ticks : list nat) :
  truthy (edgeContainer (dom s) (currentTarget e)) = false →
  let o := onDroppableEdgeEnter e s in
  o = (JUndefined, e, s)
  ∧ intervals o.2 = intervals s
  ∧ (intervals s = [] → run o.2 (IntervalFires <$> ticks) = s).
Proof.
  intros Hsel o. subst o. rewrite onDroppableEdgeEnter_undeclared by done.
  repeat split. simpl. apply fireInterval_idle.
Qed.

End EdgeScroll.

(** ** The session across inputs *)

Section Session.

Variable getElementById : Dom → string → option Node.
Variable select : Dom → string → list Node.

Local Abbreviation handle := (handle getElementById select).
Local Abbreviation step := (step getElementById select).
Local Abbreviation run := (run getElementById select).
Local Abbreviation reachable := (reachable getElementById select).

(** What a handler does to the type, to the pending timeouts and to the
    attributes of the page. *)
Lemma handle_indicator_fields h e args s :
  timers_wf s →
  let s' := (handle h e args s).2 in
  attributes (dom s') = attributes (dom s)
  ∧ match h with
    | HonDragStart =>
        if truthy (declaredType (dom s) (target e))
        then dragType s' = declaredType (dom s) (target e)
             ∧ timeouts s'
               = (if dragImageMissing getElementById e s then timeouts s
                  else timeouts s ++ [(nextTimerId s, CbSetDraggingState)])
        else dragType s' = dragType s ∧ timeouts s' = timeouts s
    | HonDragEnd | HonDragDrop =>
        dragType s' = dragType s
        ∧ timeouts s' = timeouts s ++ [(nextTimerId s, CbClearDraggingState)]
    | _ => dragType s' = dragType s ∧ timeouts s' = timeouts s
    end.
Proof.
  intros Hwf s'. subst s'. destruct h; simpl.
  - rewrite onDragStart_state.
    destruct (truthy (declaredType _ _)); [| done].
    destruct (sessionOpened_fields e s) as (Hty & _ & _ & Hdom & Htimers & _).
    injection Htimers as Hto _ Hnext _.
    destruct (dragImageMissing _ _ _); simpl; rewrite Hdom, Hty, Hto, ?Hnext; done.
  - unfold onDragEnd. simpl. by destruct (triggerDraggableEvents s).
  - unfold onDragEnter. simpl. by destruct (negb _).
  - unfold onDragOver. by destruct (negb _).
  - done.
  - done.
  - destruct (truthy (edgeContainer (dom s) (currentTarget e))) eqn:Hsel;
      [| by rewrite onDroppableEdgeEnter_undeclared].
    destruct (jQuery select (dom s) (edgeContainer (dom s) (currentTarget e)))
      as [| first rest] eqn:Hset.
    + by rewrite onDroppableEdgeEnter_unresolved.
    + rewrite (onDroppableEdgeEnter_resolved _ _ _ first rest) by done.
      change (scrollInterval s)
        with (scrollInterval (set_scrollContainer (JQset (first :: rest)) s)).
      rewrite clearInterval_scrollInterval; [done |].
      by apply (timers_wf_ext s).
  - unfold onDroppableEdgeLeave. simpl.
    by rewrite clearInterval_scrollInterval.
  - unfold onDataSet. simpl. by destruct (strict_eq _ _).
Qed.

(** Only a drag start and a payload override write the type or the
    payload. *)
Lemma step_keeps_payload s i :
  keeps_payload i = true →
  dragType (step s i) = dragType s ∧ dragData (step s i) = dragData s.
Proof.
  intros Hi. destruct i as [h e args | | id | this o | this o]; simpl.
  - destruct h; try discriminate; simpl.
    + unfold onDragEnd. simpl. by destruct (triggerDraggableEvents s).
    + unfold onDragEnter. simpl. by destruct (negb _).
    + unfold onDragOver. by destruct (negb _).
    + done.
    + done.
    + unfold onDroppableEdgeEnter. destruct (truthy _); simpl; [| done].
      destruct (jQuery _ _ _); simpl; [done |].
      by destruct (scrollInterval s).
    + unfold onDroppableEdgeLeave. simpl. by destruct (scrollInterval s).
  - unfold fireTimeout. destruct (timeouts s) as [| [id cb] rest]; [done |].
    destruct cb; simpl; [done | done |].
    pose proof (jquery_only_fields _ _
                  (jquery_only_externalMethods (set_timeouts rest s))) as (Hs & _).
    unfold session in Hs. simpl in Hs. split; congruence.
  - destruct (fireInterval_dom id s) as (-> & _). done.
  - pose proof (jquery_only_fields _ _ (jquery_only_html5Draggable this o s)) as (Hs & _).
    unfold session in Hs. split; congruence.
  - pose proof (jquery_only_fields _ _ (jquery_only_html5Droppable this o s)) as (Hs & _).
    unfold session in Hs. split; congruence.
Qed.

Lemma run_keeps_payload s trace :
  Forall (λ i, keeps_payload i = true) trace →
  dragType (run s trace) = dragType s ∧ dragData (run s trace) = dragData s.
Proof.
  intros Hall. revert s.
  induction Hall as [| i trace Hi _ IH]; intros s; [done |].
  simpl. destruct (IH (step s i)) as [-> ->]. by apply step_keeps_payload.
Qed.

(** C5.  A payload override replaces the payload when the type it carries
    is the type of the session and changes nothing otherwise.  Whatever
    is delivered afterwards short of a new drag start or another
    override, the [dnd-drop] that a drop then triggers carries the type
    of the session and that payload: the overriding one for the active
    type, the one before for any other type. *)
Theorem payload_override_reaches_drop (s : State) (type data : JsVal)
    (e eDrop : Event) (between : list Input) :
  Forall (λ i, keeps_payload i = true) between →
  let s1 := (onDataSet e type data s).2 in
  let o := onDragDrop eDrop (run s1 between) in
  s1 = (if bool_decide (type = dragType s) then set_dragData data s else s)
  ∧ dragData s1 = (if bool_decide (type = dragType s) then data else dragData s)
  ∧ last (triggered o.2)
    = Some (mkTriggered "dnd-drop" (currentTarget eDrop) o.1.2 (dragType s)
              (if bool_decide (type = dragType s) then data else dragData s)).
Proof.
  intros Hbetween s1 o.
  assert (H1 : s1 = if bool_decide (type = dragType s) then set_dragData data s else s).
  { subst s1. unfold onDataSet. simpl. by rewrite strict_eq_decide. }
  assert (H2 : dragData s1 = if bool_decide (type = dragType s) then data else dragData s).
  { rewrite H1. by case_bool_decide. }
  assert (H3 : dragType s1 = dragType s).
  { rewrite H1. by case_bool_decide. }
  split; [done |]. split; [done |].
  destruct (run_keeps_payload s1 between Hbetween) as [Ht Hd].
  subst o. unfold onDragDrop. simpl. rewrite last_snoc.
  by rewrite Ht, Hd, H2, H3.
Qed.

End Session.

(** ** The global dragging indicator *)

Lemma indicator_after_app type now cbs cbs' :
  indicator_after type now (cbs ++ cbs')
  = indicator_after type (indicator_after type now cbs) cbs'.
Proof. unfold indicator_after. apply foldl_app. Qed.

Lemma declaredType_kept (d : Dom) (s : State) (el : Node) :
  attributes_kept d s → declaredType (dom s) el = declaredType d el.
Proof.
  intros Hkept. unfold declaredType, getAttribute. by rewrite !Hkept.
Qed.

Lemma fireTimeout_fields (s : State) :
  timeouts (fireTimeout s) = tail (timeouts s)
  ∧ dragType (fireTimeout s) = dragType s
  ∧ pending_indicator (fireTimeout s) = pending_indicator s
  ∧ ∀ d, attributes_kept d s → attributes_kept d (fireTimeout s).
Proof.
  unfold fireTimeout. destruct (timeouts s) as [| [id cb] rest] eqn:Hto.
  { by rewrite Hto. }
  unfold pending_indicator, draggingIndicator. rewrite Hto.
  destruct cb; [simpl | simpl |].
  - rewrite lookup_insert_eq. repeat split; try done.
    intros d Hkept el name Hne. simpl.
    rewrite lookup_insert_ne by congruence. by apply Hkept.
  - rewrite lookup_delete_eq. repeat split; try done.
    intros d Hkept el name Hne. simpl.
    rewrite lookup_delete_ne by congruence. by apply Hkept.
  - unfold runCallback.
    pose proof (jquery_only_fields _ _
                  (jquery_only_externalMethods (set_timeouts rest s)))
      as (Hs & Hd & Ht & _).
    set (s' := externalMethods (set_timeouts rest s)) in *.
    assert (Hty : dragType s' = dragType s).
    { unfold session in Hs. injection Hs as H1 _ _ _. exact H1. }
    rewrite Hd, Ht, Hty. repeat split; try done.
    intros d Hkept el name Hne. rewrite Hd. by apply Hkept.
Qed.

(** Once the pending timeouts have fired the indicator is what they were
    going to leave. *)
Lemma flush_indicator (s : State) :
  timeouts (flush s) = []
  ∧ dragType (flush s) = dragType s
  ∧ draggingIndicator (flush s) = pending_indicator s.
Proof.
  unfold flush. remember (length (timeouts s)) as n eqn:Hn.
  revert s Hn. induction n as [| n IH]; intros s Hn.
  - symmetry in Hn. apply nil_length_inv in Hn. simpl.
    unfold pending_indicator. by rewrite Hn.
  - rewrite Nat.iter_succ_r.
    destruct (fireTimeout_fields s) as (Ht & Hty & Hp & _).
    destruct (IH (fireTimeout s)) as (IH1 & IH2 & IH3).
    { rewrite Ht. destruct (timeouts s); simpl in *; congruence. }
    by rewrite IH1, IH2, IH3, Hty, Hp.
Qed.

Section Indicator.

Variable getElementById : Dom → string → option Node.
Variable select : Dom → string → list Node.

Local Abbreviation handle := (handle getElementById select).
Local Abbreviation step := (step getElementById select).
Local Abbreviation run := (run getElementById select).

(** What the inputs other than a firing timeout leave alone. *)
Lemma step_frame s i :
  timers_wf s →
  i ≠ TimeoutFires →
  attributes (dom (step s i)) = attributes (dom s)
  ∧ match i with
    | Deliver h e args =>
        match h with
        | HonDragStart =>
            if truthy (declaredType (dom s) (target e))
            then dragType (step s i) = declaredType (dom s) (target e)
                 ∧ timeouts (step s i)
                   = (if dragImageMissing getElementById e s then timeouts s
                      else timeouts s ++ [(nextTimerId s, CbSetDraggingState)])
            else dragType (step s i) = dragType s ∧ timeouts (step s i) = timeouts s
        | HonDragEnd | HonDragDrop =>
            dragType (step s i) = dragType s
            ∧ timeouts (step s i)
              = timeouts s ++ [(nextTimerId s, CbClearDraggingState)]
        | _ => dragType (step s i) = dragType s ∧ timeouts (step s i) = timeouts s
        end
    | _ => dragType (step s i) = dragType s ∧ timeouts (step s i) = timeouts s
    end.
Proof.
  intros Hwf Hi. destruct i as [h e args | | id | this o | this o]; simpl.
  - apply (handle_indicator_fields getElementById select h e args s Hwf).
  - done.
  - destruct (fireInterval_dom id s) as (Hs & Ha & _).
    split; [done |]. by rewrite Hs.
  - pose proof (jquery_only_fields _ _ (jquery_only_html5Draggable this o s))
      as (Hs & Hd & Ht & _).
    unfold session in Hs. rewrite Hd, Ht. repeat split. congruence.
  - pose proof (jquery_only_fields _ _ (jquery_only_html5Droppable this o s))
      as (Hs & Hd & Ht & _).
    unfold session in Hs. rewrite Hd, Ht. repeat split. congruence.
Qed.

Lemma step_indicator d s i :
  timers_wf s →
  attributes_kept d s →
  (∀ v, pending_indicator s = Some v → dragType s = JStr v) →
  throws getElementById s i = false →
  attributes_kept d (step s i)
  ∧ pending_indicator (step s i) = session_after d (pending_indicator s) i
  ∧ (∀ v, pending_indicator (step s i) = Some v → dragType (step s i) = JStr v).
Proof.
  intros Hwf Hkept Htype Hthrows.
  assert (Hcase : i = TimeoutFires ∨ i ≠ TimeoutFires)
    by (destruct i; (by left) || (by right)).
  destruct Hcase as [-> | Hi].
  { simpl. destruct (fireTimeout_fields s) as (_ & Hty & Hp & Hk).
    split; [by apply Hk |]. split; [done |]. by rewrite Hp, Hty. }
  destruct (step_frame s i Hwf Hi) as (Ha & Hrest).
  assert (Hkept' : attributes_kept d (step s i)).
  { intros el name Hne. rewrite Ha. by apply Hkept. }
  split; [done |].
  assert (Hsame : dragType (step s i) = dragType s →
                  timeouts (step s i) = timeouts s →
                  pending_indicator (step s i) = pending_indicator s).
  { intros Hty Hto. unfold pending_indicator, draggingIndicator.
    by rewrite Ha, Hty, Hto. }
  assert (Hset :
            timeouts (step s i) = timeouts s ++ [(nextTimerId s, CbSetDraggingState)] →
            pending_indicator (step s i) = Some (js_to_string (dragType (step s i)))).
  { intros Hto. unfold pending_indicator.
    by rewrite Hto, fmap_app, indicator_after_app. }
  assert (Hclear :
            timeouts (step s i) = timeouts s ++ [(nextTimerId s, CbClearDraggingState)] →
            pending_indicator (step s i) = None).
  { intros Hto. unfold pending_indicator.
    by rewrite Hto, fmap_app, indicator_after_app. }
  destruct i as [h e args | | id | this o | this o]; try done;
    try (destruct Hrest as [Hty Hto]; rewrite (Hsame Hty Hto), Hty; by simpl).
  destruct h; simpl session_after;
    try (destruct Hrest as [Hty Hto]; rewrite (Hsame Hty Hto), Hty; by simpl).
  - rewrite <- (declaredType_kept d s) by done. simpl in Hthrows.
    destruct (truthy (declaredType (dom s) (target e))) eqn:Htruthy.
    + simpl in Hthrows. rewrite Hthrows in Hrest.
      destruct Hrest as [Hty Hto]. rewrite (Hset Hto), Hty.
      split; [done |]. intros v [= <-].
      by destruct (truthy_JStr _ (declaredType_cases _ _) Htruthy) as (str & -> & _).
    + destruct Hrest as [Hty Hto]. by rewrite (Hsame Hty Hto), Hty.
  - destruct Hrest as [Hty Hto]. by rewrite (Hclear Hto).
  - destruct Hrest as [Hty Hto]. by rewrite (Hclear Hto).
Qed.

Lemma completes_snoc s trace i :
  completes getElementById select s (trace ++ [i])
  = completes getElementById select s trace
    && negb (throws getElementById (run s trace) i).
Proof.
  revert s. induction trace as [| j trace IH]; intros s; simpl.
  - by rewrite !andb_true_r.
  - by rewrite IH, andb_assoc.
Qed.

Lemma run_indicator d trace :
  draggingIndicator (load d) = None →
  completes getElementById select (load d) trace = true →
  let s := run (load d) trace in
  timers_wf s
  ∧ attributes_kept d s
  ∧ pending_indicator s = live_session d trace
  ∧ (∀ v, pending_indicator s = Some v → dragType s = JStr v).
Proof.
  intros Hnone. induction trace as [| i trace IH] using rev_ind; intros Hall; simpl.
  - split; [apply timers_wf_load |]. split; [done |].
    unfold pending_indicator. simpl. by rewrite Hnone.
  - rewrite completes_snoc in Hall. apply andb_true_iff in Hall as [Hall Hi].
    apply negb_true_iff in Hi.
    unfold run, live_session in *. rewrite !foldl_app. simpl.
    destruct (IH Hall) as (Hwf & Hkept & Hp & Hty).
    destruct (step_indicator d _ i Hwf Hkept Hty Hi) as (Hkept' & Hp' & Hty').
    split; [by apply timers_wf_step |]. split; [done |].
    split; [by rewrite Hp', Hp | done].
Qed.

(** The invariant the code keeps wherever no drag start was cut short
    by an exception.  On a page that starts without the indicator,
    after a trace whose inputs all complete and with no timeout pending,
    the indicator is there exactly when a session is live, by the life
    cycle of the specification, and its value is the type of that
    session, which is the type the variables hold. *)
Theorem indicator_shows_live_session (d : Dom) (trace : list Input) :
  draggingIndicator (load d) = None →
  completes getElementById select (load d) trace = true →
  let s := flush (run (load d) trace) in
  timeouts s = []
  ∧ draggingIndicator s = live_session d trace
  ∧ (∀ v, draggingIndicator s = Some v → dragType s = JStr v).
Proof.
  intros Hnone Hall s.
  destruct (run_indicator d trace Hnone Hall) as (_ & _ & Hp & Hty).
  destruct (flush_indicator (run (load d) trace)) as (Hto & Hty' & Hind).
  subst s. split; [done |]. split; [by rewrite Hind |].
  intros v Hv. rewrite Hty'. apply Hty. by rewrite <- Hind.
Qed.

End Indicator.

(** ** Enabling and destroying *)

Lemma plugin_single (k : Controller) (el : Node) (o : Options) (s : State) :
  plugin k [el] o s
  = (plugin_each (namespace_of k)
       (match k with Draggable => DRAGGABLE_SELECTOR | Droppable => DROPPABLE_SELECTOR end)
       (match k with
        | Draggable => initializeDraggable
        | Droppable => initializeDroppable
        end) el (o, s)).2.
Proof. by destruct k. Qed.

Lemma data_get_set el key v s : data_get el key (data_set el key v s) = v.
Proof. unfold data_get, data_set. simpl. by rewrite lookup_insert_eq. Qed.

Lemma data_get_set_ne el key key' v s :
  key ≠ key' → data_get el key' (data_set el key v s) = data_get el key' s.
Proof.
  intros Hne. unfold data_get, data_set. simpl.
  rewrite lookup_insert_ne; [done | congruence].
Qed.

Lemma namespace_of_other (k : Controller) : namespace_of k ≠ namespace_of (other k).
Proof. by destruct k. Qed.

(** What the plugin of a kind does to one element that is not enabled
    when asked to enable, and to one that is enabled when asked to
    destroy. *)
Lemma plugin_enable (k : Controller) (el : Node) (o : Options) (s : State) :
  is_destroy o = false →
  enabled k el s = false →
  ∃ added,
    plugin k [el] o s
    = data_set el (namespace_of k) true (set_listeners (listeners s ++ added) s)
    ∧ Forall (in_namespace el (namespace_of k)) added.
Proof.
  intros Ho Hoff. rewrite plugin_single. unfold plugin_each, enabled in *.
  rewrite Ho, Hoff. simpl.
  destruct k; simpl; unfold initializeDraggable, initializeDroppable, on; simpl;
    eexists; (split; [by rewrite <- ?app_assoc |]);
    repeat constructor.
Qed.

Lemma plugin_destroy (k : Controller) (el : Node) (s : State) :
  enabled k el s = true →
  plugin k [el] (OptString "destroy") s
  = data_set el (namespace_of k) false (off el (namespace_of k) s).
Proof.
  intros Hon. rewrite plugin_single. unfold plugin_each, enabled in *.
  by rewrite Hon.
Qed.

Lemma plugin_noop (k : Controller) (el : Node) (o : Options) (s : State) :
  enabled k el s = negb (is_destroy o) → plugin k [el] o s = s.
Proof.
  intros Hk. rewrite plugin_single. unfold plugin_each, enabled in *.
  rewrite Hk. by destruct (is_destroy o).
Qed.

Lemma plugin_enable_listeners (k : Controller) (el : Node) (o : Options) (s : State) :
  is_destroy o = false →
  enabled k el s = false →
  plugin k [el] o s
  = data_set el (namespace_of k) true
      (set_listeners
         (listeners s
          ++ ((λ p, mkListener el p.1 (namespace_of k) (selector_of k o) p.2)
                <$> events_of k)) s).
Proof.
  intros Ho Hoff. rewrite plugin_single. unfold plugin_each, enabled in *.
  rewrite Ho, Hoff. simpl. unfold selector_of.
  destruct k, (options_truthy o); simpl;
    unfold initializeDraggable, initializeDroppable, on; simpl;
    by rewrite <- ?app_assoc.
Qed.

(** C7.  For each kind of controller and each root element: enabling an
    enabled element and destroying one that is not enabled change
    nothing, so enabling twice is enabling once and destroying twice is
    destroying once; after enabling the element is marked enabled;
    destroying after enabling takes away exactly the listeners of the
    element in the namespace of the kind and marks the element not
    enabled; and neither touches the mark of the other kind or a
    listener outside its namespace.  Enabling an element that is not
    enabled registers the listeners of the kind, one for each of its
    events, so after enabling once or twice each event of the kind has
    the one listener more. *)
Theorem enable_destroy_idempotent (k : Controller) (el : Node) (options : Options)
    (s : State) :
  is_destroy options = false →
  let enable := plugin k [el] options in
  let destroy := plugin k [el] (OptString "destroy") in
  (if enabled k el s then enable s = s else destroy s = s)
  ∧ enabled k el (enable s) = true
  ∧ enable (enable s) = enable s
  ∧ enabled k el (destroy s) = false
  ∧ destroy (destroy s) = destroy s
  ∧ listeners (destroy (enable s))
    = filter (λ l, ¬ in_namespace el (namespace_of k) l) (listeners (enable s))
  ∧ enabled k el (destroy (enable s)) = false
  ∧ enabled (other k) el (enable s) = enabled (other k) el s
  ∧ enabled (other k) el (destroy s) = enabled (other k) el s
  ∧ (∀ l, ¬ in_namespace el (namespace_of k) l →
          (l ∈ listeners (destroy s) ↔ l ∈ listeners s)
          ∧ (l ∈ listeners (enable s) ↔ l ∈ listeners s))
  ∧ enable (enable s)
    = (if enabled k el s then s
       else data_set el (namespace_of k) true
              (set_listeners
                 (listeners s
                  ++ ((λ p, mkListener el p.1 (namespace_of k)
                              (selector_of k options) p.2) <$> events_of k)) s)).
Proof.
  intros Ho enable destroy.
  assert (Hreg : enable (enable s)
                 = (if enabled k el s then s
                    else data_set el (namespace_of k) true
                           (set_listeners
                              (listeners s
                               ++ ((λ p, mkListener el p.1 (namespace_of k)
                                           (selector_of k options) p.2)
                                     <$> events_of k)) s))).
  { destruct (enabled k el s) eqn:Hk.
    - assert (He : enable s = s) by (apply plugin_noop; by rewrite Hk, Ho).
      by rewrite !He.
    - pose proof (plugin_enable_listeners k el options s Ho Hk) as He.
      fold enable in He. rewrite He. apply plugin_noop.
      unfold enabled. by rewrite data_get_set, Ho. }
  assert (Hd : is_destroy (OptString "destroy") = true) by done.
  assert (Hen : enabled k el (enable s) = true).
  { destruct (enabled k el s) eqn:Hk.
    - subst enable. rewrite plugin_noop; [done |]. by rewrite Hk, Ho.
    - destruct (plugin_enable k el options s Ho Hk) as (added & Heq & _).
      subst enable. rewrite Heq. apply data_get_set. }
  assert (Hde : enabled k el (destroy s) = false).
  { destruct (enabled k el s) eqn:Hk.
    - subst destroy. rewrite plugin_destroy by done. apply data_get_set.
    - subst destroy. rewrite plugin_noop; [done |]. by rewrite Hk. }
  assert (Hee : enable (enable s) = enable s).
  { apply plugin_noop. by rewrite Hen, Ho. }
  assert (Hdd : destroy (destroy s) = destroy s).
  { apply plugin_noop. by rewrite Hde. }
  assert (Hdes : destroy (enable s)
                 = data_set el (namespace_of k) false
                     (off el (namespace_of k) (enable s))).
  { by apply plugin_destroy. }
  split; [| split; [done | split; [done | split; [done | split; [done |]]]]].
  { destruct (enabled k el s) eqn:Hk.
    - apply plugin_noop. by rewrite Hk, Ho.
    - apply plugin_noop. by rewrite Hk. }
  split; [by rewrite Hdes |].
  split; [rewrite Hdes; apply data_get_set |].
  pose proof (namespace_of_other k) as Hns.
  split; [| split; [| split; [| exact Hreg]]].
  - destruct (enabled k el s) eqn:Hk.
    + subst enable. rewrite plugin_noop; [done |]. by rewrite Hk, Ho.
    + destruct (plugin_enable k el options s Ho Hk) as (added & Heq & _).
      subst enable. rewrite Heq. unfold enabled. by rewrite data_get_set_ne.
  - destruct (enabled k el s) eqn:Hk.
    + subst destroy. rewrite plugin_destroy by done.
      unfold enabled. by rewrite data_get_set_ne.
    + subst destroy. rewrite plugin_noop; [done |]. by rewrite Hk.
  - intros l Hl. split.
    + destruct (enabled k el s) eqn:Hk.
      * subst destroy. rewrite plugin_destroy by done. simpl.
        rewrite list_elem_of_filter. tauto.
      * subst destroy. rewrite plugin_noop; [done |]. by rewrite Hk.
    + destruct (enabled k el s) eqn:Hk.
      * subst enable. rewrite plugin_noop; [done |]. by rewrite Hk, Ho.
      * destruct (plugin_enable k el options s Ho Hk) as (added & Heq & Hadded).
        subst enable. rewrite Heq. simpl. rewrite elem_of_app.
        rewrite Forall_forall in Hadded. split; [| tauto].
        intros [? | Hin]; [done |]. by apply Hadded in Hin.
Qed.

(** ** The module on the page *)

Lemma reachable_flush getElementById select d s :
  reachable getElementById select d s → reachable getElementById select d (flush s).
Proof.
  intros Hs. unfold flush. induction (length (timeouts s)) as [| n IH]; [done |].
  simpl. apply (reachable_step getElementById select d _ TimeoutFires IH).
Qed.

Section OnThePage.

Import Page.

Local Abbreviation run := (run getElementById select).
Local Abbreviation reachable := (reachable getElementById select).
Local Abbreviation onDroppableEdgeEnter := (onDroppableEdgeEnter select).

Lemma reachable_dragging : reachable page dragging.
Proof. apply reachable_run, reachable_flush. constructor. Qed.

Lemma reachable_dropped : reachable page dropped.
Proof. apply reachable_run, reachable_dragging. Qed.

(** One drag start after enabling the document a second time triggers
    one [dnd-start]. *)
Example enabled_twice_one_event :
  let s := html5Draggable [document] OptUndefined ready in
  trig_type <$> triggered (dispatch getElementById select document "dragstart"
                             (at_ card) s).2
  = ["dnd-start"].
Proof. vm_compute. reflexivity. Qed.

(** The edge listeners of the document are in the namespace of the
    droppable controller, so destroying that controller on the document
    takes them away too. *)
Example destroy_takes_edge_listeners :
  listeners_for document "dragenter"
    (html5Droppable [document] (OptString "destroy") ready) = [].
Proof. vm_compute. reflexivity. Qed.

(** A draggable without a type starts a drag the module does not see. *)
Example plain_drag_is_not_instrumented :
  onDragStart getElementById (at_ plain) ready = (JUndefined, at_ plain, ready).
Proof. vm_compute. reflexivity. Qed.

(** A sentinel whose container matches nothing starts no timer, one whose
    container is an element scrolls that element. *)
Example edge_gone_starts_no_timer :
  intervals (onDroppableEdgeEnter (at_ edgeGone) dragging).2 = []
  ∧ scrollTop_of
      (dom (run dragging
              [Deliver HonDroppableEdgeEnter (at_ edgeList) [];
               IntervalFires (nextTimerId dragging);
               IntervalFires (nextTimerId dragging)]))
      (Element scroller) = 80.
Proof. vm_compute. done. Qed.

(** The interval function reads [$scrollContainer] when it runs: a timer
    started at the top sentinel goes on firing after the sentinel with
    the missing container is entered, and scrolls nothing from then on. *)
Example running_timer_loses_its_container :
  let s := run dragging
             [Deliver HonDroppableEdgeEnter (at_ edgeTop) [];
              IntervalFires (nextTimerId dragging);
              Deliver HonDroppableEdgeEnter (at_ edgeGone) [];
              IntervalFires (nextTimerId dragging)] in
  length (intervals s) = 1%nat ∧ scrollTop_of (dom s) Window = 60.
Proof. vm_compute. done. Qed.

(** The end-to-end scenario: the card is dropped on the droppable for
    cards, which gets a [dnd-drop] with the type and the payload; after
    the drag end and the last timeout the card has lost its marker class
    and the indicator is gone. *)
Example card_dropped_on_cards :
  (λ t, (trig_type t, trig_target t, trig_dragType t, trig_dragData t))
    <$> triggered ended
  = [("dnd-start", card, JStr "card", JStr "42");
     ("dnd-drop", cards, JStr "card", JStr "42");
     ("dnd-end", card, JStr "card", JStr "42")]
  ∧ hasClass (dom ended) card DRAGGABLE_DRAGGING_CLASS = false
  ∧ draggingIndicator ended = None.
Proof. vm_compute. done. Qed.

Lemma indicator_shows_live_session_witness :
  draggingIndicator (load page) = None
  ∧ completes getElementById select (load page) startTrace = true
  ∧ draggingIndicator (flush (run (load page) startTrace)) = Some "card"
  ∧ dragType (flush (run (load page) startTrace)) = JStr "card".
Proof.
  assert (Hnone : draggingIndicator (load page) = None) by (vm_compute; reflexivity).
  assert (Hall : completes getElementById select (load page) startTrace = true)
    by (vm_compute; reflexivity).
  split; [exact Hnone |]. split; [exact Hall |].
  pose proof (indicator_shows_live_session getElementById select page startTrace
                Hnone Hall) as H.
  cbv zeta in H. destruct H as (_ & Hind & Hty).
  assert (Hexp : live_session page startTrace = Some "card")
    by (vm_compute; reflexivity).
  rewrite Hexp in Hind. split; [exact Hind | exact (Hty _ Hind)].
Defined.

Lemma payload_override_reaches_drop_witness :
  Forall (λ i, keeps_payload i = true) hover
  ∧ trig_dragData
      <$> last (triggered
                  (onDragDrop (at_ cards)
                     (run (onDataSet (at_ document) (JStr "card") (JRef 7) dragging).2
                        hover)).2)
    = Some (JRef 7)
  ∧ trig_dragData
      <$> last (triggered
                  (onDragDrop (at_ cards)
                     (run (onDataSet (at_ document) (JStr "task") (JRef 7) dragging).2
                        hover)).2)
    = Some (JStr "42").
Proof.
  assert (Hall : Forall (λ i, keeps_payload i = true) hover)
    by (repeat constructor).
  assert (Hty : dragType dragging = JStr "card") by (vm_compute; reflexivity).
  assert (Hdata : dragData dragging = JStr "42") by (vm_compute; reflexivity).
  split; [exact Hall |]. split.
  - pose proof (payload_override_reaches_drop getElementById select dragging
                  (JStr "card") (JRef 7) (at_ document) (at_ cards) hover Hall) as H.
    cbv zeta in H. destruct H as (_ & _ & Hlast).
    rewrite Hlast, Hty. reflexivity.
  - pose proof (payload_override_reaches_drop getElementById select dragging
                  (JStr "task") (JRef 7) (at_ document) (at_ cards) hover Hall) as H.
    cbv zeta in H. destruct H as (_ & _ & Hlast).
    rewrite Hlast, Hty, Hdata. reflexivity.
Defined.

Lemma edge_scroll_single_timer_witness :
  reachable page dragging
  ∧ truthy (edgeContainer (dom dragging) (currentTarget (at_ edgeTop))) = true
  ∧ intervals (onDroppableEdgeEnter (at_ edgeTop) dragging).2
    = [(nextTimerId dragging, mkIntervalTimer SCROLL_INTERVAL (-40))]
  ∧ scrollTop_of
      (dom (Nat.iter 2 (fireInterval (nextTimerId dragging))
              (onDroppableEdgeEnter (at_ edgeTop) dragging).2)) Window
    = scrollTop_of (dom dragging) Window + 2 * -40
  ∧ intervals (onDroppableEdgeLeave (at_ edgeTop)
                 (onDroppableEdgeEnter (at_ edgeTop) dragging).2).2 = [].
Proof.
  assert (Hsel : truthy (edgeContainer (dom dragging) (currentTarget (at_ edgeTop)))
                 = true) by (vm_compute; reflexivity).
  split; [apply reachable_dragging |]. split; [exact Hsel |].
  pose proof (edge_scroll_single_timer getElementById select page dragging
                (at_ edgeTop) (at_ edgeTop) 2 reachable_dragging Hsel) as H.
  cbv zeta in H. destruct H as (_ & Hstart & Hleave & _).
  assert (Hjq : jQuery select (dom dragging)
                  (edgeContainer (dom dragging) (currentTarget (at_ edgeTop)))
                = [Window]) by (vm_compute; reflexivity).
  rewrite Hjq in Hstart.
  assert (Htop : bool_decide
                   (getAttribute (dom dragging) (currentTarget (at_ edgeTop))
                      "data-droppable-edge" = JStr "top") = true)
    by (vm_compute; reflexivity).
  rewrite Htop in Hstart. destruct Hstart as (Hint & _ & Hticks).
  split; [exact Hint |]. split; [exact Hticks | exact Hleave].
Defined.

Lemma edge_without_container_is_inert_witness :
  truthy (edgeContainer (dom dragging) (currentTarget (at_ edgeBottom))) = false
  ∧ onDroppableEdgeEnter (at_ edgeBottom) dragging
    = (JUndefined, at_ edgeBottom, dragging)
  ∧ run (onDroppableEdgeEnter (at_ edgeBottom) dragging).2
      (IntervalFires <$> [4; 4; 5]%nat) = dragging.
Proof.
  assert (Hsel : truthy (edgeContainer (dom dragging) (currentTarget (at_ edgeBottom)))
                 = false) by (vm_compute; reflexivity).
  split; [exact Hsel |].
  pose proof (edge_without_container_is_inert getElementById select dragging
                (at_ edgeBottom) [4; 4; 5]%nat Hsel) as H.
  cbv zeta in H. destruct H as (Hsame & _ & Hidle).
  split; [exact Hsame |]. apply Hidle. vm_compute. reflexivity.
Defined.

Lemma enable_destroy_idempotent_witness :
  is_destroy OptUndefined = false
  ∧ html5Draggable [document] OptUndefined ready = ready
  ∧ listeners (html5Draggable [document] (OptString "destroy") ready)
    = filter (λ l, ¬ in_namespace document DEFAULT_DRAG_NAMESPACE l) (listeners ready)
  ∧ enabled Draggable document
      (html5Draggable [document] (OptString "destroy") ready) = false
  ∧ enabled Droppable document
      (html5Draggable [document] (OptString "destroy") ready) = true.
Proof.
  assert (Ho : is_destroy OptUndefined = false) by reflexivity.
  split; [exact Ho |].
  pose proof (enable_destroy_idempotent Draggable document OptUndefined ready Ho) as H.
  cbv zeta in H.
  assert (Hen : enabled Draggable document ready = true) by (vm_compute; reflexivity).
  rewrite Hen in H.
  destruct H as (Hnoop & _ & _ & Hoff & _ & Hlst & _ & _ & Hother & _).
  change (plugin Draggable) with html5Draggable in *.
  change (namespace_of Draggable) with DEFAULT_DRAG_NAMESPACE in *.
  rewrite Hnoop in Hlst.
  split; [exact Hnoop |]. split; [exact Hlst |]. split; [exact Hoff |].
  change (other Draggable) with Droppable in Hother.
  rewrite Hother. vm_compute. reflexivity.
Defined.

End OnThePage.

(** * Further properties *)

(** ** Which input writes what *)

Lemma jquery_only_frames (s s' : State) :
  jquery_only s s' →
  dragType s' = dragType s ∧ cancelled s' = cancelled s
  ∧ triggerDraggableEvents s' = triggerDraggableEvents s
  ∧ intervals s' = intervals s ∧ scrollInterval s' = scrollInterval s
  ∧ scrollContainer s' = scrollContainer s.
Proof. intros ->. done. Qed.

Section Frames.

Variable getElementById : Dom → string → option Node.
Variable select : Dom → string → list Node.

Local Abbreviation step := (step getElementById select).
Local Abbreviation run := (run getElementById select).

Lemma step_frames (s : State) (i : Input) :
  (writes_type i = false → dragType (step s i) = dragType s)
  ∧ (writes_cancelled i = false → cancelled (step s i) = cancelled s)
  ∧ (writes_flag i = false →
     triggerDraggableEvents (step s i) = triggerDraggableEvents s)
  ∧ (touches_scroll_timer i = false →
     intervals (step s i) = intervals s
     ∧ scrollInterval (step s i) = scrollInterval s
     ∧ scrollContainer (step s i) = scrollContainer s).
Proof.
  destruct i as [h e args | | id | this o | this o]; simpl.
  - destruct h; simpl; (split; [| split; [| split]]);
      intros Hw; try discriminate Hw; clear Hw.
    all: try (rewrite onDragStart_state; destruct (truthy _); [| done];
              destruct (sessionOpened_fields e s) as (_ & _ & Hc & _ & Ht & Hsc & _);
              injection Ht as _ Hi _ Hsi;
              destruct (dragImageMissing _ _ _); simpl;
              by rewrite ?Hc, ?Hi, ?Hsi, ?Hsc).
    all: try (unfold onDragEnd; simpl; by destruct (triggerDraggableEvents s)).
    all: try (unfold onDragEnter; simpl; by destruct (negb _)).
    all: try (unfold onDragOver; by destruct (negb _)).
    all: try done.
    all: try (unfold onDroppableEdgeEnter; destruct (truthy _); simpl; [| done];
              destruct (jQuery _ _ _); simpl; [done |];
              by destruct (scrollInterval s)).
    all: try (unfold onDroppableEdgeLeave; simpl; by destruct (scrollInterval s)).
    all: unfold onDataSet; simpl; by destruct (strict_eq _ _).
  - unfold fireTimeout. destruct (timeouts s) as [| [id cb] rest]; [done |].
    destruct cb; [done | done |]. unfold runCallback.
    by destruct (jquery_only_frames _ _
                   (jquery_only_externalMethods (set_timeouts rest s)))
      as (-> & -> & -> & -> & -> & ->).
  - destruct (fireInterval_dom id s) as (-> & _). done.
  - by destruct (jquery_only_frames _ _ (jquery_only_html5Draggable this o s))
      as (-> & -> & -> & -> & -> & ->).
  - by destruct (jquery_only_frames _ _ (jquery_only_html5Droppable this o s))
      as (-> & -> & -> & -> & -> & ->).
Qed.

End Frames.

Section Survival.

Variable getElementById : Dom → string → option Node.
Variable select : Dom → string → list Node.

Local Abbreviation step := (step getElementById select).
Local Abbreviation run := (run getElementById select).
Local Abbreviation onDragStart := (onDragStart getElementById).

(** What no input of a kind writes, no run of inputs of that kind
    changes. *)
Lemma run_frame {A} (w : Input → bool) (f : State → A) :
  (∀ s i, w i = false → f (step s i) = f s) →
  ∀ trace s, Forall (λ i, w i = false) trace → f (run s trace) = f s.
Proof.
  intros Hstep trace. induction trace as [| i trace IH]; intros s Hall; [done |].
  apply Forall_cons in Hall as [Hi Hall]. simpl.
  rewrite IH by done. by apply Hstep.
Qed.

Lemma onDragEnter_cancelled (e : Event) (s : State) :
  cancelled (onDragEnter e s).2
  = bool_decide (acceptedType (dom s) (currentTarget e) ≠ dragType s).
Proof.
  unfold onDragEnter. fold (acceptedType (dom s) (currentTarget e)). simpl.
  rewrite strict_eq_decide.
  destruct (decide (acceptedType (dom s) (currentTarget e) = dragType s)) as [Heq | Hne].
  - rewrite bool_decide_eq_true_2 by done. simpl.
    symmetry. apply bool_decide_eq_false_2. by intros ?.
  - rewrite bool_decide_eq_false_2 by done. simpl.
    symmetry. by apply bool_decide_eq_true_2.
Qed.

(** X6.  Nothing but a drag start writes the drag type: drops, drag ends,
    timers, overrides and plugin calls leave it, so a drag enter that
    comes after them, even after the drag has ended, is still gated on
    the type of the last drag started. *)
Theorem type_survives_until_next_start (s : State) (trace : list Input) (e : Event) :
  Forall (λ i, writes_type i = false) trace →
  let s' := run s trace in
  dragType s' = dragType s
  ∧ cancelled (onDragEnter e s').2
    = bool_decide (acceptedType (dom s') (currentTarget e) ≠ dragType s).
Proof.
  intros Hall s'.
  assert (Hty : dragType s' = dragType s).
  { apply (run_frame writes_type dragType); [| done].
    intros s0 i. apply step_frames. }
  split; [done |]. by rewrite onDragEnter_cancelled, Hty.
Qed.

(** X12.  Only the two edge handlers touch the scroll timer: a drop, a
    drag end and everything else leave the active interval, the variable
    that names it and the remembered container as they are, so a timer
    that runs when the drag ends keeps running. *)
Theorem scroll_timer_outlives_drag (s : State) (trace : list Input) :
  Forall (λ i, touches_scroll_timer i = false) trace →
  intervals (run s trace) = intervals s
  ∧ scrollInterval (run s trace) = scrollInterval s
  ∧ scrollContainer (run s trace) = scrollContainer s.
Proof.
  intros Hall.
  assert (Hstep : ∀ s0 i, touches_scroll_timer i = false →
            (intervals (step s0 i), scrollInterval (step s0 i),
             scrollContainer (step s0 i))
            = (intervals s0, scrollInterval s0, scrollContainer s0)).
  { intros s0 i Hi. destruct (step_frames getElementById select s0 i)
      as (_ & _ & _ & Hscroll).
    by destruct (Hscroll Hi) as (-> & -> & ->). }
  pose proof (run_frame touches_scroll_timer
                (λ s, (intervals s, scrollInterval s, scrollContainer s))
                Hstep trace s Hall) as Hrun.
  simpl in Hrun. by injection Hrun as -> -> ->.
Qed.

(** X14.  Nothing but a drag enter writes the cancellation flag; a drag
    start does not reset it.  A drag over is therefore judged by the
    last drag enter whatever came since, and in a module that has seen
    no drag enter at all it prevents the default. *)
Theorem cancelled_written_by_enter_only (s : State) (trace : list Input) (e : Event) :
  Forall (λ i, writes_cancelled i = false) trace →
  let o := onDragOver e (run s trace) in
  cancelled (run s trace) = cancelled s
  ∧ o.1 = (if cancelled s then (JUndefined, e) else (JBool false, preventDefault e))
  ∧ ∀ d, cancelled (load d) = false.
Proof.
  intros Hall o.
  assert (Hc : cancelled (run s trace) = cancelled s).
  { apply (run_frame writes_cancelled cancelled); [| done].
    intros s0 i. apply step_frames. }
  split; [done |]. split; [| done].
  subst o. unfold onDragOver. rewrite Hc. by destruct (cancelled s).
Qed.

(** X3.  A drag start at an element with a type triggers [dnd-start], with
    the declared type and payload, exactly when the element has
    [data-draggable-trigger="true"], and then raises the custom-events
    flag; it never lowers it.  The drag end that follows, whatever but
    a drag start or drag end comes between, triggers [dnd-end] exactly
    when the flag is up, with the type of the drag and the payload as it
    is then, and lowers the flag. *)
Theorem custom_events_paired (s : State) (e e' : Event) (between : list Input) :
  truthy (declaredType (dom s) (target e)) = true →
  Forall (λ i, writes_flag i = false) between →
  let opted :=
    bool_decide (getAttribute (dom s) (target e) "data-draggable-trigger" = JStr "true") in
  let s1 := (onDragStart e s).2 in
  let s2 := run s1 between in
  let s3 := (onDragEnd e' s2).2 in
  triggerDraggableEvents s1 = opted || triggerDraggableEvents s
  ∧ triggered s1
    = triggered s
      ++ (if opted
          then [mkTriggered "dnd-start" (target e) e
                  (declaredType (dom s) (target e)) (declaredData (dom s) (target e))]
          else [])
  ∧ triggered s3
    = triggered s2
      ++ (if opted || triggerDraggableEvents s
          then [mkTriggered "dnd-end" (target e') e'
                  (declaredType (dom s) (target e)) (dragData s2)]
          else [])
  ∧ triggerDraggableEvents s3 = false.
Proof.
  intros Htype Hall opted s1 s2 s3.
  assert (H1 : triggerDraggableEvents s1 = opted || triggerDraggableEvents s
               ∧ dragType s1 = declaredType (dom s) (target e)
               ∧ triggered s1
                 = triggered s
                   ++ (if opted
                       then [mkTriggered "dnd-start" (target e) e
                               (declaredType (dom s) (target e))
                               (declaredData (dom s) (target e))]
                       else [])).
  { subst s1 opted. rewrite onDragStart_state, Htype. unfold sessionOpened.
    rewrite strict_eq_decide.
    destruct (dragImageMissing _ _ _); case_bool_decide; simpl;
      rewrite ?app_nil_r; done. }
  destruct H1 as (Hflag1 & Hty1 & Htrig1).
  assert (Hflag2 : triggerDraggableEvents s2 = triggerDraggableEvents s1).
  { apply (run_frame writes_flag triggerDraggableEvents); [| done].
    intros s0 i. apply step_frames. }
  assert (Hty2 : dragType s2 = dragType s1).
  { apply (run_frame writes_type dragType).
    - intros s0 i. apply step_frames.
    - eapply Forall_impl; [exact Hall |]. intros i Hi. by destruct i as [[] | | | |]. }
  split; [done |]. split; [done |].
  subst s3. rewrite onDragEnd_triggered.
  pose proof (onDragEnd_session e' s2) as Hses. unfold session in Hses.
  rewrite Hflag2, Hflag1, Hty2, Hty1.
  split; [| congruence].
  destruct (opted || triggerDraggableEvents s); [done |]. by rewrite app_nil_r.
Qed.

(** X4.  A drag start at an element with a type leaves the native event to
    go on: it neither prevents the default nor stops propagation.  It
    allows the move effect and puts the one entry Text/true in the
    transfer; it sets a drag image only where the browser has
    [setDragImage] and the element names an image, at offset (0, 0),
    passing whatever [getElementById] gives for the name, nothing
    included. *)
Theorem onDragStart_transfer (e : Event) (s : State) :
  truthy (declaredType (dom s) (target e)) = true →
  let e' := (onDragStart e s).1.2 in
  let image := getAttribute (dom s) (target e) "data-draggable-image" in
  defaultPrevented e' = defaultPrevented e
  ∧ propagationStopped e' = propagationStopped e
  ∧ effectAllowed (dataTransfer e') = JStr "move"
  ∧ dropEffect (dataTransfer e') = dropEffect (dataTransfer e)
  ∧ transferData (dataTransfer e') = ("Text", "true") :: transferData (dataTransfer e)
  ∧ dragImage (dataTransfer e')
    = (if setDragImage_supported (dataTransfer e) && truthy image
       then Some (getElementById (dom (onDragStart e s).2) (js_to_string image), 0, 0)
       else dragImage (dataTransfer e)).
Proof.
  intros Htype e' image. subst e' image. unfold onDragStart.
  fold (declaredType (dom s) (target e)). rewrite Htype. simpl.
  change (getAttribute (classList_add (dom s) (target e) DRAGGABLE_DRAGGING_CLASS))
    with (getAttribute (dom s)).
  destruct (strict_eq (getAttribute _ _ "data-draggable-trigger") _); simpl;
    destruct (setDragImage_supported (dataTransfer e)); simpl; try done;
    destruct (truthy (getAttribute _ _ "data-draggable-image")); simpl; try done;
    destruct (getElementById _ _) eqn:Hid; simpl;
    change (getAttribute (classList_add (dom s) (target e) DRAGGABLE_DRAGGING_CLASS))
      with (getAttribute (dom s)) in Hid;
    by rewrite Hid.
Qed.

End Survival.

(** ** Drag leave *)

(** X1.  A drag leave takes the hover class off the element it is handled
    at and does nothing else: the session with its cancellation flag,
    the timers, the triggered events, the attributes and every other
    class stay, and the event object is untouched.  After a drag enter
    at the same element the class list is the one from before without
    the hover class of the element, accepted or not. *)
Theorem onDragLeave_only_unmarks (e : Event) (s : State) :
  let o := onDragLeave e s in
  let mark := (currentTarget e, DROPPABLE_HOVER_CLASS) in
  o.1 = (JUndefined, e)
  ∧ o.2 = set_dom (dom o.2) s
  ∧ attributes (dom o.2) = attributes (dom s)
  ∧ scrollTops (dom o.2) = scrollTops (dom s)
  ∧ classList (dom o.2) = classList (dom s) ∖ {[ mark ]}
  ∧ classList (dom (onDragLeave e (onDragEnter e s).2).2)
    = classList (dom s) ∖ {[ mark ]}
  ∧ cancelled (onDragLeave e (onDragEnter e s).2).2 = cancelled (onDragEnter e s).2.
Proof.
  intros o mark. subst o mark. unfold onDragLeave. simpl.
  repeat match goal with |- _ ∧ _ => split end; try done.
  unfold onDragEnter. simpl. destruct (negb _); simpl; [done |].
  apply set_eq. intros x.
  rewrite !elem_of_difference, elem_of_union, elem_of_singleton. tauto.
Qed.

(** ** Nested droppables *)

Lemma onDragEnter_reject (e : Event) (s : State) :
  acceptedType (dom s) (currentTarget e) ≠ dragType s →
  onDragEnter e s = (JUndefined, e, set_cancelled true s).
Proof.
  intros Hne. unfold onDragEnter. fold (acceptedType (dom s) (currentTarget e)).
  simpl. rewrite strict_eq_decide. by rewrite bool_decide_eq_false_2.
Qed.

Lemma onDragEnter_accept (e : Event) (s : State) :
  acceptedType (dom s) (currentTarget e) = dragType s →
  onDragEnter e s
  = (JUndefined,
     stopPropagation (with_dataTransfer (set_dropEffect (JStr "move")) e),
     set_dom (classList_add (dom s) (currentTarget e) DROPPABLE_HOVER_CLASS)
       (set_cancelled false s)).
Proof.
  intros Heq. unfold onDragEnter. fold (acceptedType (dom s) (currentTarget e)).
  simpl. rewrite strict_eq_decide. by rewrite bool_decide_eq_true_2.
Qed.

Lemma deliverAlong_rejected (chain : list Node) (e : Event) (s : State) :
  propagationStopped e = false →
  Forall (λ el, acceptedType (dom s) el ≠ dragType s) chain →
  deliverAlong onDragEnter chain e s
  = (match last chain with Some el => with_currentTarget el e | None => e end,
     match chain with [] => s | _ => set_cancelled true s end).
Proof.
  revert e s. induction chain as [| el chain IH]; intros e s He Hall; [done |].
  apply Forall_cons in Hall as [Hel Hall].
  simpl deliverAlong. rewrite He, onDragEnter_reject by done. simpl.
  rewrite (IH (with_currentTarget el e) (set_cancelled true s)) by done.
  destruct chain as [| el' chain]; [done |].
  rewrite last_cons_cons.
  destruct (last (el' :: chain)) eqn:Hlast; [done |].
  by apply last_None in Hlast.
Qed.

(** X7.  Delivered from the hovered element outwards as jQuery delivers a
    delegated drag enter, the event stops at the first droppable that
    accepts the type: that element alone gets the hover class, the
    session is not cancelled, and the droppables outside it are not
    asked, whatever they accept.  When no droppable on the way accepts,
    none is marked, the event propagates on and the session is
    cancelled. *)
Theorem innermost_accepting_droppable_wins (s : State) (e : Event)
    (inner outer : list Node) (el : Node) :
  propagationStopped e = false →
  Forall (λ el', acceptedType (dom s) el' ≠ dragType s) inner →
  acceptedType (dom s) el = dragType s →
  deliverAlong onDragEnter (inner ++ el :: outer) e s
  = (stopPropagation
       (with_dataTransfer (set_dropEffect (JStr "move")) (with_currentTarget el e)),
     set_dom (classList_add (dom s) el DROPPABLE_HOVER_CLASS) (set_cancelled false s))
  ∧ deliverAlong onDragEnter inner e s
    = (match last inner with Some el' => with_currentTarget el' e | None => e end,
       match inner with [] => s | _ => set_cancelled true s end).
Proof.
  intros He Hinner Hel. split; [| by apply deliverAlong_rejected].
  revert e s He Hinner Hel.
  induction inner as [| el' inner IH]; intros e s He Hinner Hel.
  - simpl. rewrite He, onDragEnter_accept by done. simpl.
    by destruct outer.
  - apply Forall_cons in Hinner as [Hel' Hinner].
    simpl deliverAlong. rewrite He, onDragEnter_reject by done. simpl.
    by rewrite (IH (with_currentTarget el' e) (set_cancelled true s)).
Qed.

(** ** More on timers *)

Lemma scrollTop_set_other (d : Dom) (els : list ScrollTarget) (v : Z) (t : ScrollTarget) :
  t ∉ els → scrollTop_of (scrollTop_set d els v) t = scrollTop_of d t.
Proof.
  unfold scrollTop_of, scrollTop_set. simpl.
  induction els as [| t' els IH]; intros Ht; [done |].
  apply not_elem_of_cons in Ht as [Hne Ht]. simpl.
  rewrite lookup_insert_ne by done. by apply IH.
Qed.

(** X16.  A tick of the active interval writes scroll offsets and nothing
    else.  With an empty container it changes nothing; otherwise every
    element of the container gets the offset of the first one plus the
    difference of the timer, and every other offset, every attribute and
    every class stay. *)
Theorem scroll_tick_frame (s : State) (id : nat) (timer : IntervalTimer)
    (els : list ScrollTarget) :
  intervals s = [(id, timer)] →
  scrollContainer s = JQset els →
  let s' := fireInterval id s in
  s' = set_dom (dom s') s
  ∧ attributes (dom s') = attributes (dom s)
  ∧ classList (dom s') = classList (dom s)
  ∧ match els with
    | [] => s' = s
    | first :: _ =>
        (∀ t, t ∈ els →
              scrollTop_of (dom s') t = scrollTop_of (dom s) first + scrollDiff timer)
        ∧ (∀ t, t ∉ els → scrollTop_of (dom s') t = scrollTop_of (dom s) t)
    end.
Proof.
  intros Hint Hc s'.
  destruct (fireInterval_dom id s) as (Hs & Ha & Hcl).
  split; [done |]. split; [done |]. split; [done |].
  destruct els as [| first rest].
  - subst s'. unfold fireInterval, scrollStep. rewrite Hint, Hc. simpl.
    by rewrite decide_True.
  - subst s'. rewrite (fireInterval_active s id timer first rest) by done. simpl.
    split; intros t Ht.
    + by apply scrollTop_set_elem.
    + by apply scrollTop_set_other.
Qed.

Section TimerSafety.

Variable getElementById : Dom → string → option Node.
Variable select : Dom → string → list Node.

Local Abbreviation handle := (handle getElementById select).
Local Abbreviation step := (step getElementById select).
Local Abbreviation reachable := (reachable getElementById select).
Local Abbreviation onDroppableEdgeEnter := (onDroppableEdgeEnter select).

(** X11.  In every state the module reaches, the [clearInterval] of the
    edge handlers cancels no pending timeout: a drag enter or a drag
    leave at an edge sentinel leaves the pending updates of the
    indicator as they are. *)
Theorem edge_handlers_keep_timeouts (d : Dom) (s : State) (e : Event) :
  reachable d s →
  timeouts (onDroppableEdgeEnter e s).2 = timeouts s
  ∧ timeouts (onDroppableEdgeLeave e s).2 = timeouts s.
Proof.
  intros Hreach. pose proof (reachable_timers_wf _ _ _ _ Hreach) as Hwf.
  split.
  - by destruct (handle_indicator_fields getElementById select
                   HonDroppableEdgeEnter e [] s Hwf) as (_ & _ & H).
  - by destruct (handle_indicator_fields getElementById select
                   HonDroppableEdgeLeave e [] s Hwf) as (_ & _ & H).
Qed.

Lemma reachable_container (d : Dom) (s : State) :
  reachable d s → intervals s = [] ∨ ∃ els, scrollContainer s = JQset els.
Proof.
  induction 1 as [| s i Hreach IH]; [by left |].
  pose proof (reachable_timers_wf _ _ _ _ Hreach) as Hwf.
  destruct (touches_scroll_timer i) eqn:Hi.
  - destruct i as [[] e args | | | |]; try discriminate; simpl.
    + destruct (truthy (edgeContainer (dom s) (currentTarget e))) eqn:Hsel;
        [| by rewrite onDroppableEdgeEnter_undeclared].
      destruct (jQuery select (dom s) (edgeContainer (dom s) (currentTarget e)))
        as [| first rest] eqn:Hset.
      * rewrite onDroppableEdgeEnter_unresolved by done. right. by eexists.
      * rewrite (onDroppableEdgeEnter_resolved _ _ _ first rest) by done.
        right. eexists. simpl. by destruct (scrollInterval s).
    + left. unfold onDroppableEdgeLeave. simpl.
      by rewrite clearInterval_scrollInterval.
  - destruct (step_frames getElementById select s i) as (_ & _ & _ & Hscroll).
    destruct (Hscroll Hi) as (-> & _ & ->). exact IH.
Qed.

(** X13.  In every state the module reaches, an active interval finds a
    jQuery set in [$scrollContainer]: its function never reads a member
    of [null] or of an undefined value, so no tick throws. *)
Theorem scroll_tick_never_throws (d : Dom) (s : State) (id : nat) (timer : IntervalTimer) :
  reachable d s →
  (id, timer) ∈ intervals s →
  is_Some (scrollStep (scrollDiff timer) s).
Proof.
  intros Hreach Hin.
  destruct (reachable_container d s Hreach) as [Hnil | [els Hc]].
  - rewrite Hnil in Hin. by apply elem_of_nil in Hin.
  - unfold scrollStep. rewrite Hc. by destruct els.
Qed.



End TimerSafety.

(** ** More on the plugins *)

(** X2.  Loading the module registers nothing and leaves one timeout
    pending.  When it has fired, on any page, the page and the session
    variables are untouched, the document is enabled for both kinds with
    the default selectors, the two edge listeners are delegated under
    the droppable namespace and the payload listener is in no
    namespace; no other element is enabled. *)
Theorem deferred_setup (d : Dom) :
  let s := flush (load d) in
  listeners (load d) = []
  ∧ timeouts (load d) = [(1%nat, CbExternalMethods)]
  ∧ timeouts s = []
  ∧ dom s = d
  ∧ session_cleared s
  ∧ listeners s
    = mkListener document "dnd-data-set" "" JUndefined HdataSet
      :: ((λ p, mkListener document p.1 DEFAULT_DRAG_NAMESPACE
                  (JStr DRAGGABLE_SELECTOR) p.2) <$> events_of Draggable)
      ++ ((λ p, mkListener document p.1 DEFAULT_DROP_NAMESPACE
                  (JStr DROPPABLE_SELECTOR) p.2) <$> events_of Droppable)
      ++ [mkListener document "dragenter" DEFAULT_DROP_NAMESPACE
            (JStr DROPPABLE_EDGE_SELECTOR) HonDroppableEdgeEnter;
          mkListener document "dragleave" DEFAULT_DROP_NAMESPACE
            (JStr DROPPABLE_EDGE_SELECTOR) HonDroppableEdgeLeave]
  ∧ ∀ k el, enabled k el s = bool_decide (el = document).
Proof.
  intros s. subst s.
  repeat match goal with |- _ ∧ _ => split end; try reflexivity.
  intros k el. unfold enabled, data_get.
  assert (Hdata : elemData (flush (load d))
                  = <[(document, DEFAULT_DROP_NAMESPACE) := true]>
                      (<[(document, DEFAULT_DRAG_NAMESPACE) := true]> ∅))
    by reflexivity.
  rewrite Hdata. case_bool_decide as Hel.
  - subst el. destruct k; simpl.
    + rewrite lookup_insert_ne by done. by rewrite lookup_insert_eq.
    + by rewrite lookup_insert_eq.
  - rewrite !lookup_insert_ne by congruence. by rewrite lookup_empty.
Qed.

(** What the initializers and the plugins do to the listeners and flags of
    the elements they are not called on. *)
Lemma plugin_unfold (k : Controller) (this : list Node) (o : Options) (s : State) :
  plugin k this o s
  = (foldl (λ os el,
              plugin_each (namespace_of k) (default_selector k)
                (match k with
                 | Draggable => initializeDraggable
                 | Droppable => initializeDroppable
                 end) el os) (o, s) this).2.
Proof. by destruct k. Qed.

Lemma initialize_listeners (k : Controller) (el : Node) (sel : JsVal) (s : State) :
  match k with
  | Draggable => initializeDraggable
  | Droppable => initializeDroppable
  end (namespace_of k) el sel s
  = set_listeners
      (listeners s
       ++ ((λ p, mkListener el p.1 (namespace_of k) sel p.2) <$> events_of k)) s.
Proof.
  destruct k; unfold initializeDraggable, initializeDroppable, on; simpl;
    by rewrite <- ?app_assoc.
Qed.

Lemma plugin_each_cases (k : Controller) (el : Node) (o : Options) (s : State) :
  let r := plugin_each (namespace_of k) (default_selector k)
             (match k with
              | Draggable => initializeDraggable
              | Droppable => initializeDroppable
              end) el (o, s) in
  is_destroy r.1 = is_destroy o
  ∧ (r.2 = s
     ∨ (is_destroy o = true ∧ enabled k el s = true
        ∧ r.2 = data_set el (namespace_of k) false (off el (namespace_of k) s))
     ∨ (is_destroy o = false ∧ enabled k el s = false
        ∧ r.2 = data_set el (namespace_of k) true
                  (set_listeners
                     (listeners s
                      ++ ((λ p, mkListener el p.1 (namespace_of k) (selector_of k o) p.2)
                            <$> events_of k)) s)))
  ∧ enabled k el r.2 = negb (is_destroy o).
Proof.
  intros r. subst r. unfold plugin_each, enabled, destroy.
  destruct (is_destroy o) eqn:Ho, (data_get el (namespace_of k) s) eqn:Hk; simpl.
  - split; [done |]. split; [| by rewrite data_get_set]. right. by left.
  - split; [done |]. split; [by left | done].
  - split; [done |]. split; [by left | done].
  - rewrite initialize_listeners. unfold selector_of.
    split; [by destruct (options_truthy o) |].
    split; [| by rewrite data_get_set].
    right. right. by destruct (options_truthy o).
Qed.

(** X9.  Any option but the exact string [destroy] enables.  On an element
    that is not enabled the call appends the listeners of the kind, in
    the order of the source, under the namespace of the kind and with the
    selector of the options: the [selector] member of an object, the
    default selector when the option is missing or an empty string, and
    no selector at all, which binds the handlers to the element itself,
    when it is another string. *)
Theorem enable_registers_listeners (k : Controller) (el : Node) (o : Options) (s : State) :
  is_destroy o = false →
  enabled k el s = false →
  plugin k [el] o s
  = data_set el (namespace_of k) true
      (set_listeners
         (listeners s
          ++ ((λ p, mkListener el p.1 (namespace_of k) (selector_of k o) p.2)
                <$> events_of k)) s)
  ∧ selector_of k OptUndefined = JStr (default_selector k)
  ∧ selector_of k (OptString "") = JStr (default_selector k)
  ∧ (∀ sel, selector_of k (OptObject sel) = sel)
  ∧ (∀ str, str ≠ "" → selector_of k (OptString str) = JUndefined).
Proof.
  intros Ho Hk. rewrite plugin_unfold. simpl.
  destruct (plugin_each_cases k el o s) as (_ & [Hsame | [(Hd & _) | (_ & _ & Hr)]] & Hen).
  - rewrite Hsame in Hen. rewrite Hk, Ho in Hen. discriminate.
  - congruence.
  - split; [done |]. repeat split.
    intros str Hstr. unfold selector_of. simpl.
    by destruct (String.eqb_spec str "").
Qed.

(** X10.  On an element that is not enabled and has no listener in the
    namespace of the kind, enabling and then destroying gives back the
    listeners as they were: the state differs from the one before only
    in the flag, which is now stored as false. *)
Theorem enable_then_destroy_restores (k : Controller) (el : Node) (o : Options)
    (s : State) :
  is_destroy o = false →
  enabled k el s = false →
  Forall (λ l, ¬ in_namespace el (namespace_of k) l) (listeners s) →
  plugin k [el] (OptString "destroy") (plugin k [el] o s)
  = data_set el (namespace_of k) false s.
Proof.
  intros Ho Hk Hfree.
  destruct (plugin_enable k el o s Ho Hk) as (added & -> & Hadded).
  rewrite plugin_destroy by apply data_get_set.
  unfold data_set, off. simpl.
  rewrite insert_insert_eq, filter_app.
  rewrite (filter_all _ (listeners s)) by (by apply Forall_forall).
  rewrite (filter_none _ added), app_nil_r; [by destruct s |].
  intros l Hl Hnot. rewrite Forall_forall in Hadded. by apply Hnot, Hadded.
Qed.

Lemma data_get_set_other el key el' key' v s :
  (el, key) ≠ (el', key') → data_get el' key' (data_set el key v s) = data_get el' key' s.
Proof.
  intros Hne. unfold data_get, data_set. simpl. by rewrite lookup_insert_ne.
Qed.

Lemma plugin_each_elsewhere (k : Controller) (el el' : Node) (o : Options) (s : State) :
  let r := plugin_each (namespace_of k) (default_selector k)
             (match k with
              | Draggable => initializeDraggable
              | Droppable => initializeDroppable
              end) el (o, s) in
  (el' ≠ el → enabled k el' r.2 = enabled k el' s
              ∧ filter (λ l, lst_element l = el') (listeners r.2)
                = filter (λ l, lst_element l = el') (listeners s))
  ∧ enabled (other k) el' r.2 = enabled (other k) el' s.
Proof.
  intros r.
  destruct (plugin_each_cases k el o s) as (_ & [Hsame | [(_ & _ & Hr) | (_ & _ & Hr)]] & _);
    fold r in Hsame || fold r in Hr.
  - by rewrite Hsame.
  - rewrite Hr. split.
    + intros Hne. unfold enabled, data_get, data_set, off. simpl.
      rewrite lookup_insert_ne by congruence. split; [done |].
      rewrite list_filter_filter. apply list_filter_iff.
      intros l. unfold in_namespace. split; [tauto |]. intros Hl.
      split; [done |]. intros [Hel _]. congruence.
    + unfold enabled. rewrite data_get_set_other; [done |].
      intros [= _ Hns]. by apply (namespace_of_other k).
  - rewrite Hr. split.
    + intros Hne. unfold enabled, data_get, data_set. simpl.
      rewrite lookup_insert_ne by congruence. split; [done |].
      rewrite filter_app, (filter_none _ (_ <$> _)), app_nil_r; [done |].
      intros l (p & -> & _)%list_elem_of_fmap. simpl. congruence.
    + unfold enabled. rewrite data_get_set_other; [done |].
      intros [= _ Hns]. by apply (namespace_of_other k).
Qed.

(** X8.  A plugin call goes over every element of its jQuery set: each one
    ends enabled, or not enabled when the option is [destroy], however
    it was before.  An element outside the set keeps its flag and its
    listeners, and no flag of the other kind changes. *)
Theorem plugin_covers_its_set (k : Controller) (this : list Node) (o : Options)
    (s : State) :
  let r := plugin k this o s in
  (∀ el, el ∈ this → enabled k el r = negb (is_destroy o))
  ∧ (∀ el, el ∉ this →
           enabled k el r = enabled k el s
           ∧ filter (λ l, lst_element l = el) (listeners r)
             = filter (λ l, lst_element l = el) (listeners s))
  ∧ (∀ el, enabled (other k) el r = enabled (other k) el s).
Proof.
  intros r. subst r. rewrite plugin_unfold.
  set (F := λ os el, plugin_each _ _ _ el os).
  revert o s. induction this as [| a this IH]; intros o s.
  { simpl. split; [| done]. intros el Hel. by apply elem_of_nil in Hel. }
  change (foldl F (o, s) (a :: this)) with (foldl F (F (o, s) a) this).
  assert (Hfirst : is_destroy (F (o, s) a).1 = is_destroy o
                   ∧ enabled k a (F (o, s) a).2 = negb (is_destroy o)).
  { by destruct (plugin_each_cases k a o s) as (? & _ & ?). }
  assert (Hout : ∀ el',
            (el' ≠ a →
             enabled k el' (F (o, s) a).2 = enabled k el' s
             ∧ filter (λ l, lst_element l = el') (listeners (F (o, s) a).2)
               = filter (λ l, lst_element l = el') (listeners s))
            ∧ enabled (other k) el' (F (o, s) a).2 = enabled (other k) el' s).
  { intros el'. exact (plugin_each_elsewhere k a el' o s). }
  destruct (F (o, s) a) as [o1 s1]. destruct Hfirst as [Hd Hen].
  simpl in Hd, Hen, Hout.
  destruct (IH o1 s1) as (IHin & IHout & IHother).
  split; [| split].
  - intros el Hel. destruct (decide (el ∈ this)) as [Hin | Hnin].
    + rewrite IHin by done. by rewrite Hd.
    + apply elem_of_cons in Hel as [-> | ?]; [| done].
      destruct (IHout a Hnin) as [-> _]. done.
  - intros el [Hne Hnin]%not_elem_of_cons.
    destruct (IHout el Hnin) as [-> ->].
    destruct (Hout el) as [Hkeep _]. by apply Hkeep.
  - intros el. rewrite IHother. by destruct (Hout el) as [_ ->].
Qed.

Lemma plugin_keeps_foreign (k : Controller) (this : list Node) (o : Options)
    (s : State) (l : Listener) :
  lst_namespace l ≠ namespace_of k →
  l ∈ listeners s → l ∈ listeners (plugin k this o s).
Proof.
  intros Hns. rewrite plugin_unfold.
  set (F := λ os el, plugin_each _ _ _ el os).
  revert o s. induction this as [| a this IH]; intros o s Hl; [done |].
  change (foldl F (o, s) (a :: this)) with (foldl F (F (o, s) a) this).
  assert (Hfirst : l ∈ listeners (F (o, s) a).2).
  { destruct (plugin_each_cases k a o s)
      as (_ & [Hsame | [(_ & _ & Hr) | (_ & _ & Hr)]] & _); unfold F.
    - by rewrite Hsame.
    - rewrite Hr. simpl. apply list_elem_of_filter. split; [| done].
      intros [_ Hin]. done.
    - rewrite Hr. simpl. apply elem_of_app. by left. }
  destruct (F (o, s) a) as [o1 s1]. by apply IH.
Qed.

Section Listeners.

Variable getElementById : Dom → string → option Node.
Variable select : Dom → string → list Node.

Local Abbreviation handle := (handle getElementById select).
Local Abbreviation step := (step getElementById select).
Local Abbreviation run := (run getElementById select).

Lemma handle_listeners h e args s : listeners (handle h e args s).2 = listeners s.
Proof.
  destruct h; simpl.
  - rewrite onDragStart_state. destruct (truthy _); [| done].
    destruct (sessionOpened_fields e s) as (_ & _ & _ & _ & _ & _ & Hl).
    by destruct (dragImageMissing _ _ _).
  - unfold onDragEnd. simpl. by destruct (triggerDraggableEvents s).
  - unfold onDragEnter. simpl. by destruct (negb _).
  - unfold onDragOver. by destruct (negb _).
  - done.
  - done.
  - unfold onDroppableEdgeEnter. destruct (truthy _); simpl; [| done].
    destruct (jQuery _ _ _); simpl; [done |]. by destruct (scrollInterval s).
  - unfold onDroppableEdgeLeave. simpl. by destruct (scrollInterval s).
  - unfold onDataSet. simpl. by destruct (strict_eq _ _).
Qed.

Lemma externalMethods_keeps (s : State) (l : Listener) :
  lst_namespace l ≠ DEFAULT_DRAG_NAMESPACE →
  lst_namespace l ≠ DEFAULT_DROP_NAMESPACE →
  l ∈ listeners s → l ∈ listeners (externalMethods s).
Proof.
  intros Hdrag Hdrop Hl. unfold externalMethods, on at 1 2. simpl.
  apply elem_of_app. left. apply elem_of_app. left.
  apply (plugin_keeps_foreign Droppable); [done |].
  apply (plugin_keeps_foreign Draggable); [done |].
  unfold on. simpl. apply elem_of_app. by left.
Qed.

Lemma step_keeps_foreign (s : State) (i : Input) (l : Listener) :
  lst_namespace l ≠ DEFAULT_DRAG_NAMESPACE →
  lst_namespace l ≠ DEFAULT_DROP_NAMESPACE →
  l ∈ listeners s → l ∈ listeners (step s i).
Proof.
  intros Hdrag Hdrop Hl. destruct i as [h e args | | id | this o | this o]; simpl.
  - by rewrite handle_listeners.
  - unfold fireTimeout. destruct (timeouts s) as [| [id cb] rest]; [done |].
    destruct cb; [done | done |]. by apply externalMethods_keeps.
  - destruct (fireInterval_dom id s) as (-> & _). done.
  - by apply (plugin_keeps_foreign Draggable).
  - by apply (plugin_keeps_foreign Droppable).
Qed.

(** X15.  No input takes away a listener that is outside the two
    namespaces of the plugins: the handlers and the timers touch no
    listener, and a destroy detaches within its own namespace only.  So
    the payload listener, registered in no namespace, stays for good
    once the deferred setup has run, whatever is destroyed. *)
Theorem foreign_listeners_stay (s : State) (trace : list Input) (l : Listener) :
  lst_namespace l ≠ DEFAULT_DRAG_NAMESPACE →
  lst_namespace l ≠ DEFAULT_DROP_NAMESPACE →
  l ∈ listeners s →
  l ∈ listeners (run s trace)
  ∧ ∀ d, mkListener document "dnd-data-set" "" JUndefined HdataSet
         ∈ listeners (run (flush (load d)) trace).
Proof.
  intros Hdrag Hdrop Hl.
  assert (Hrun : ∀ l0 s0, lst_namespace l0 ≠ DEFAULT_DRAG_NAMESPACE →
                   lst_namespace l0 ≠ DEFAULT_DROP_NAMESPACE →
                   l0 ∈ listeners s0 → l0 ∈ listeners (run s0 trace)).
  { intros l0. induction trace as [| i trace IH]; intros s0 H1 H2 H0; [done |].
    simpl. apply IH; [done | done |]. by apply step_keeps_foreign. }
  split; [by apply Hrun |].
  intros d. apply Hrun; [done | done |]. by left.
Qed.

End Listeners.

(** ** The further properties on the page *)

Section MoreOnThePage.

Import Page Scenes.

Local Abbreviation run := (run getElementById select).
Local Abbreviation reachable := (reachable getElementById select).
Local Abbreviation onDragStart := (onDragStart getElementById).
Local Abbreviation onDroppableEdgeEnter := (onDroppableEdgeEnter select).

Lemma reachable_started : reachable page started.
Proof. apply reachable_run, reachable_flush. constructor. Qed.

Lemma reachable_scrolling : reachable page scrolling.
Proof. apply reachable_run, reachable_dragging. Qed.

(** C4, where the code breaks it.  The dragged element names a drag image
    that no element is, in a browser that has [setDragImage]: the drag
    start writes the session, marks the element, and throws at the call
    before it sets the timeout.  With no timeout pending the session is
    live, of type photo, and the indicator is not there. *)
Theorem indicator_missing_after_failed_drag_image :
  let s := flush (run (load album) orphanTrace) in
  draggingIndicator (load album) = None
  ∧ completes getElementById select (load album) orphanTrace = false
  ∧ throws getElementById (flush (load album))
      (Deliver HonDragStart (at_ orphan) []) = true
  ∧ timeouts s = []
  ∧ live_session album orphanTrace = Some "photo"
  ∧ session s = (JStr "photo", JStr "", false, false)
  ∧ hasClass (dom s) orphan DRAGGABLE_DRAGGING_CLASS = true
  ∧ draggingIndicator s = None
  ∧ draggingIndicator s ≠ live_session album orphanTrace.
Proof.
  assert (Hind : draggingIndicator (flush (run (load album) orphanTrace)) = None)
    by (vm_compute; reflexivity).
  assert (Hlive : live_session album orphanTrace = Some "photo")
    by (vm_compute; reflexivity).
  cbv zeta.
  repeat match goal with |- _ ∧ _ => split end; try (vm_compute; reflexivity).
  rewrite Hind, Hlive. discriminate.
Qed.

Lemma custom_events_paired_witness :
  truthy (declaredType (dom ready) (target (at_ card))) = true
  ∧ Forall (λ i, writes_flag i = false) overridden
  ∧ last (triggered (onDragEnd (at_ card)
                       (run (onDragStart (at_ card) ready).2 overridden)).2)
    = Some (mkTriggered "dnd-end" card (at_ card) (JStr "card") (JRef 7)).
Proof.
  assert (Htype : truthy (declaredType (dom ready) (target (at_ card))) = true)
    by (vm_compute; reflexivity).
  assert (Hall : Forall (λ i, writes_flag i = false) overridden)
    by (repeat constructor).
  split; [exact Htype |]. split; [exact Hall |].
  pose proof (custom_events_paired getElementById select ready (at_ card) (at_ card)
                overridden Htype Hall) as H.
  cbv zeta in H. destruct H as (_ & _ & Hend & _).
  rewrite Hend. vm_compute. reflexivity.
Defined.

Lemma onDragStart_transfer_witness :
  truthy (declaredType (dom (flush (load gallery))) (target (at_ photo))) = true
  ∧ dragImage (dataTransfer (onDragStart (at_ photo) (flush (load gallery))).1.2)
    = Some (Some scroller, 0, 0).
Proof.
  assert (Htype : truthy (declaredType (dom (flush (load gallery)))
                            (target (at_ photo))) = true)
    by (vm_compute; reflexivity).
  split; [exact Htype |].
  pose proof (onDragStart_transfer getElementById (at_ photo) (flush (load gallery))
                Htype) as H.
  cbv zeta in H. destruct H as (_ & _ & _ & _ & _ & Himage).
  rewrite Himage. vm_compute. reflexivity.
Defined.


Lemma type_survives_until_next_start_witness :
  Forall (λ i, writes_type i = false) finish
  ∧ dragType (run dragging finish) = JStr "card"
  ∧ cancelled (onDragEnter (at_ cards) (run dragging finish)).2 = false.
Proof.
  assert (Hall : Forall (λ i, writes_type i = false) finish) by (repeat constructor).
  split; [exact Hall |].
  pose proof (type_survives_until_next_start getElementById select dragging finish
                (at_ cards) Hall) as H.
  cbv zeta in H. destruct H as (Hty & Hgate).
  rewrite Hty, Hgate. split; vm_compute; reflexivity.
Defined.

Lemma innermost_accepting_droppable_wins_witness :
  propagationStopped (at_ tasks) = false
  ∧ Forall (λ el', acceptedType (dom dragging) el' ≠ dragType dragging) [tasks]
  ∧ acceptedType (dom dragging) cards = dragType dragging
  ∧ (λ s, (hasClass (dom s) tasks DROPPABLE_HOVER_CLASS,
           hasClass (dom s) cards DROPPABLE_HOVER_CLASS,
           hasClass (dom s) document DROPPABLE_HOVER_CLASS, cancelled s))
      (deliverAlong onDragEnter ([tasks] ++ cards :: [document]) (at_ tasks) dragging).2
    = (false, true, false, false).
Proof.
  assert (Hinner : Forall (λ el', acceptedType (dom dragging) el' ≠ dragType dragging)
                     [tasks]).
  { constructor; [| constructor]. intros Heq. vm_compute in Heq. discriminate. }
  assert (Hel : acceptedType (dom dragging) cards = dragType dragging)
    by (vm_compute; reflexivity).
  split; [reflexivity |]. split; [exact Hinner |]. split; [exact Hel |].
  pose proof (innermost_accepting_droppable_wins dragging (at_ tasks) [tasks] [document]
                cards eq_refl Hinner Hel) as [Hwin _].
  rewrite Hwin. vm_compute. reflexivity.
Defined.

Lemma enable_registers_listeners_witness :
  is_destroy (OptString "destory") = false
  ∧ enabled Draggable card ready = false
  ∧ lst_selector
      <$> listeners_for card "dragstart" (plugin Draggable [card] (OptString "destory") ready)
    = [JUndefined].
Proof.
  assert (Hk : enabled Draggable card ready = false) by (vm_compute; reflexivity).
  split; [reflexivity |]. split; [exact Hk |].
  pose proof (enable_registers_listeners Draggable card (OptString "destory") ready
                eq_refl Hk) as [Heq _].
  rewrite Heq. vm_compute. reflexivity.
Defined.

Lemma enable_then_destroy_restores_witness :
  is_destroy (OptObject (JStr ".slot")) = false
  ∧ enabled Droppable cards ready = false
  ∧ Forall (λ l, ¬ in_namespace cards (namespace_of Droppable) l) (listeners ready)
  ∧ listeners (plugin Droppable [cards] (OptString "destroy")
                 (plugin Droppable [cards] (OptObject (JStr ".slot")) ready))
    = listeners ready.
Proof.
  assert (Hk : enabled Droppable cards ready = false) by (vm_compute; reflexivity).
  assert (Hfree : Forall (λ l, ¬ in_namespace cards (namespace_of Droppable) l)
                    (listeners ready)).
  { apply Forall_forall. intros l Hl [Hel _].
    assert (Hdoc : Forall (λ l, lst_element l = document) (listeners ready))
      by (vm_compute; repeat constructor).
    rewrite Forall_forall in Hdoc. rewrite (Hdoc l Hl) in Hel. discriminate. }
  split; [reflexivity |]. split; [exact Hk |]. split; [exact Hfree |].
  by rewrite (enable_then_destroy_restores Droppable cards (OptObject (JStr ".slot"))
                ready eq_refl Hk Hfree).
Defined.

Lemma edge_handlers_keep_timeouts_witness :
  reachable page started
  ∧ timeouts (onDroppableEdgeEnter (at_ edgeTop) started).2
    = [(2%nat, CbSetDraggingState)]
  ∧ timeouts (onDroppableEdgeLeave (at_ edgeTop) started).2
    = [(2%nat, CbSetDraggingState)].
Proof.
  split; [exact reachable_started |].
  destruct (edge_handlers_keep_timeouts getElementById select page started (at_ edgeTop)
              reachable_started) as [Henter Hleave].
  rewrite Hleave, Henter. split; vm_compute; reflexivity.
Defined.

Lemma scroll_timer_outlives_drag_witness :
  Forall (λ i, touches_scroll_timer i = false) finish
  ∧ intervals (run scrolling finish) = [(3%nat, mkIntervalTimer SCROLL_INTERVAL (-40))]
  ∧ scrollContainer (run scrolling finish) = JQset [Window].
Proof.
  assert (Hall : Forall (λ i, touches_scroll_timer i = false) finish)
    by (repeat constructor).
  split; [exact Hall |].
  destruct (scroll_timer_outlives_drag getElementById select scrolling finish Hall)
    as (Hint & _ & Hc).
  rewrite Hint, Hc. split; vm_compute; reflexivity.
Defined.

Lemma scroll_tick_never_throws_witness :
  reachable page scrolling
  ∧ (3%nat, mkIntervalTimer SCROLL_INTERVAL (-40)) ∈ intervals scrolling
  ∧ is_Some (scrollStep (-40) scrolling).
Proof.
  assert (Hin : (3%nat, mkIntervalTimer SCROLL_INTERVAL (-40)) ∈ intervals scrolling).
  { assert (Hint : intervals scrolling = [(3%nat, mkIntervalTimer SCROLL_INTERVAL (-40))])
      by (vm_compute; reflexivity).
    rewrite Hint. by left. }
  split; [exact reachable_scrolling |]. split; [exact Hin |].
  exact (scroll_tick_never_throws getElementById select page scrolling 3
           (mkIntervalTimer SCROLL_INTERVAL (-40)) reachable_scrolling Hin).
Defined.

Lemma cancelled_written_by_enter_only_witness :
  Forall (λ i, writes_cancelled i = false) startTrace
  ∧ (onDragOver (at_ tasks) (run (load page) startTrace)).1
    = (JBool false, preventDefault (at_ tasks)).
Proof.
  assert (Hall : Forall (λ i, writes_cancelled i = false) startTrace)
    by (repeat constructor).
  split; [exact Hall |].
  pose proof (cancelled_written_by_enter_only getElementById select (load page)
                startTrace (at_ tasks) Hall) as H.
  cbv zeta in H. destruct H as (_ & Hover & _).
  rewrite Hover. reflexivity.
Defined.

Lemma foreign_listeners_stay_witness :
  lst_namespace (mkListener document "dnd-data-set" "" JUndefined HdataSet)
    ≠ DEFAULT_DRAG_NAMESPACE
  ∧ lst_namespace (mkListener document "dnd-data-set" "" JUndefined HdataSet)
    ≠ DEFAULT_DROP_NAMESPACE
  ∧ mkListener document "dnd-data-set" "" JUndefined HdataSet ∈ listeners ready
  ∧ mkListener document "dnd-data-set" "" JUndefined HdataSet
    ∈ listeners (run ready teardown).
Proof.
  assert (Hdrag : lst_namespace (mkListener document "dnd-data-set" "" JUndefined HdataSet)
                  ≠ DEFAULT_DRAG_NAMESPACE) by done.
  assert (Hdrop : lst_namespace (mkListener document "dnd-data-set" "" JUndefined HdataSet)
                  ≠ DEFAULT_DROP_NAMESPACE) by done.
  assert (Hready : listeners ready
                   = mkListener document "dnd-data-set" "" JUndefined HdataSet
                     :: tail (listeners ready)) by (vm_compute; reflexivity).
  assert (Hin : mkListener document "dnd-data-set" "" JUndefined HdataSet
                ∈ listeners ready) by (rewrite Hready; left).
  split; [exact Hdrag |]. split; [exact Hdrop |]. split; [exact Hin |].
  exact (proj1 (foreign_listeners_stay getElementById select ready teardown _
                  Hdrag Hdrop Hin)).
Defined.

Lemma scroll_tick_frame_witness :
  intervals scrolling = [(3%nat, mkIntervalTimer SCROLL_INTERVAL (-40))]
  ∧ scrollContainer scrolling = JQset [Window]
  ∧ scrollTop_of (dom (fireInterval 3 scrolling)) Window = 60
  ∧ scrollTop_of (dom (fireInterval 3 scrolling)) (Element scroller) = 0.
Proof.
  assert (Hint : intervals scrolling = [(3%nat, mkIntervalTimer SCROLL_INTERVAL (-40))])
    by (vm_compute; reflexivity).
  assert (Hc : scrollContainer scrolling = JQset [Window]) by (vm_compute; reflexivity).
  split; [exact Hint |]. split; [exact Hc |].
  pose proof (scroll_tick_frame scrolling 3 _ _ Hint Hc) as H.
  cbv zeta in H. destruct H as (_ & _ & _ & Hin & Hout).
  rewrite (Hin Window) by (by left).
  rewrite (Hout (Element scroller)).
  - split; vm_compute; reflexivity.
  - intros Hel. apply list_elem_of_singleton in Hel. discriminate.
Defined.

End MoreOnThePage.
